(** * MaidSafe-RUDP: connection manager and transport

    A shallow embedding of [src/maidsafe/rudp/connection_manager.cc] and
    [src/maidsafe/rudp/transport.cc], with the properties of the connection
    set, the socket registry, handshake routing, rendezvous connect and
    bootstrap stated and proved over it.

    Conventions of the embedding.
    - A [ConnectionPtr] is the address of a [Connection] object; the objects
      live in one store (the [Heap]).  A [Socket*] is the address of the
      connection that owns the socket, so that an update made through the
      socket map is seen through the connection set and conversely.
    - The mutex of the manager serialises its operations; every operation is
      one atomic state transformer here.
    - Calls into classes that are not part of these files ([Connection],
      [Socket], the user's functors) are recorded as events, in call order;
      the store a function returns holds what the function did itself and,
      for [UpdatePeerEndpoint], the effect the spec gives; it does not hold
      what the other recorded calls go on to do to their objects.
    - [assert] aborts in a debug build and vanishes under [NDEBUG]; both
      builds are modelled, selected by a boolean. *)

From stdpp Require Import base option list gmap strings.
From Stdlib Require Import NArith ZArith Lia Sorted.

#[local] Open Scope N_scope.

(** ** Results of code that may hit an assertion *)

Inductive Res (A : Type) : Type :=
| Ok (a : A)
| AssertionFailed.
Arguments Ok {A} a.
Arguments AssertionFailed {A}.

Definition res_bind {A B} (r : Res A) (k : A -> Res B) : Res B :=
  match r with
  | Ok a => k a
  | AssertionFailed => AssertionFailed
  end.

#[global] Instance Res_mbind : MBind Res := fun A B k r => res_bind r k.
#[global] Instance Res_mret : MRet Res := fun A a => Ok a.

(** [assert(b)] followed by the rest of the function body. *)
Definition assert {A} (NDEBUG b : bool) (k : Res A) : Res A :=
  if NDEBUG || b then k else AssertionFailed.

(** ** Data model *)

Abbreviation uint32 := N.
Abbreviation ptr := positive.

(** [NodeId]: the raw identifier; [NodeId()] is the zero id, which is not
    valid ([peer_id.IsValid()] is how the bootstrap loop tells failure). *)
Abbreviation NodeId := N.
Definition NodeId_default : NodeId := 0.
Definition NodeId_IsValid (id : NodeId) : bool := negb (id =? 0).

(** [boost::asio::ip::udp::endpoint] *)
Record Endpoint : Type := mkEndpoint { address : N; port : N }.

#[global] Instance Endpoint_eq_dec : EqDecision Endpoint.
Proof. solve_decision. Defined.

Definition Endpoint_default : Endpoint := mkEndpoint 0 0.

(** [Connection::State] *)
Inductive State : Type :=
| kPending | kTemporary | kBootstrapping | kUnvalidated | kPermanent | kDuplicate.

#[global] Instance State_eq_dec : EqDecision State.
Proof. solve_decision. Defined.

(** [Session::Mode], the connection reason carried by a handshake packet:
    the two these files name and the two more the spec lists
    ("connection_reason ∈ {Normal, BootstrapAndDrop, NatDetection, Ping}"). *)
Inductive Mode : Type :=
| kNormal | kBootstrapAndDrop | kNatDetection | kPing.

#[global] Instance Mode_eq_dec : EqDecision Mode.
Proof. solve_decision. Defined.

(** [boost::posix_time::time_duration]; [time_duration()] is zero. *)
Inductive time_duration : Type :=
| milliseconds (n : Z)
| pos_infin.

#[global] Instance time_duration_eq_dec : EqDecision time_duration.
Proof. solve_decision. Defined.

Definition time_duration_default : time_duration := milliseconds 0.

(** The part of a [Socket] the manager reads and writes. *)
Record Socket : Type := mkSocket {
  peer_endpoint_ : Endpoint;
  peer_guessed_port_ : N;
  peer_node_id_ : NodeId;
  is_connected_ : bool
}.

(** A [Connection] object: its state and the socket it owns. *)
Record Connection : Type := mkConnection {
  state_ : State;
  socket_ : Socket
}.

(** The object store, by address. *)
Abbreviation Heap := (gmap positive Connection).

(** ** The connection group: [std::set<ConnectionPtr>]

    The set is ordered on the pointers (the declaration in [transport.h] is
    [typedef std::set<ConnectionPtr> ConnectionSet;] and the manager erases by
    pointer and searches by peer id with a linear [find_if]).  It is kept as
    the list of its elements in iteration order, that is in increasing
    address order. *)

Fixpoint set_insert (c : ptr) (l : list ptr) : list ptr * bool :=
  match l with
  | [] => ([c], true)
  | x :: xs =>
      if (c <? x)%positive then (c :: l, true)
      else if (c =? x)%positive then (l, false)
      else let '(xs', inserted) := set_insert c xs in (x :: xs', inserted)
  end.

Fixpoint set_erase (c : ptr) (l : list ptr) : list ptr :=
  match l with
  | [] => []
  | x :: xs => if (c =? x)%positive then xs else x :: set_erase c xs
  end.

(** ** The connection manager *)

Record ConnectionManager : Type := mkConnectionManager {
  connections_ : list ptr;
  (** [transport_.lock()]: the owning transport, or nothing once it is gone *)
  transport_ : option ptr;
  kThisNodeId_ : NodeId;
  (** [SocketMap], destination socket id to socket, in iteration order *)
  sockets_ : list (uint32 * ptr)
}.

Definition set_connections (cm : ConnectionManager) (l : list ptr) : ConnectionManager :=
  mkConnectionManager l (transport_ cm) (kThisNodeId_ cm) (sockets_ cm).

Definition set_sockets (cm : ConnectionManager) (m : list (uint32 * ptr)) : ConnectionManager :=
  mkConnectionManager (connections_ cm) (transport_ cm) (kThisNodeId_ cm) m.

(** The constructor: [connections_()], [sockets_()]. *)
Definition ConnectionManager_new (transport : ptr) (this_node_id : NodeId)
  : ConnectionManager :=
  mkConnectionManager [] (Some transport) this_node_id [].

(** [connection->state()] and the accessors of its socket; an address that
    holds no object does not occur in the sets of the manager, which keep
    their connections alive. *)
Definition state (h : Heap) (c : ptr) : option State := state_ <$> h !! c.
Definition PeerNodeId (h : Heap) (c : ptr) : option NodeId :=
  (fun o => peer_node_id_ (socket_ o)) <$> h !! c.
Definition PeerEndpoint (h : Heap) (s : ptr) : option Endpoint :=
  (fun o => peer_endpoint_ (socket_ o)) <$> h !! s.
Definition IsConnected (h : Heap) (s : ptr) : option bool :=
  (fun o => is_connected_ (socket_ o)) <$> h !! s.

Definition state_is (h : Heap) (c : ptr) (s : State) : bool :=
  bool_decide (state h c = Some s).

(** [IsNormal] *)
Definition IsNormal (h : Heap) (connection : ptr) : bool :=
  state_is h connection kPermanent ||
  state_is h connection kUnvalidated ||
  state_is h connection kBootstrapping.

(** [McTransport::kMaxConnections] ([transport.h]) *)
Definition kMaxConnections : N := 50.

(** A [std::function] value: empty, or some callable known by a number. *)
Abbreviation functor := (option N).

(** The type of the socket map, entries in iteration order. *)
Abbreviation SocketMap := (list (N * positive)).

Section Manager.

(** [true] for a build with [NDEBUG] defined. *)
Variable NDEBUG : bool.

(** [ConnectionManager::AddConnection] *)
Definition AddConnection (h : Heap) (cm : ConnectionManager) (connection : ptr)
  : Res (ConnectionManager * bool) :=
  assert NDEBUG (negb (state_is h connection kPending))
    (if IsNormal h connection then
       let '(set', second) := set_insert connection (connections_ cm) in
       assert NDEBUG second (Ok (set_connections cm set', second))
     else Ok (cm, false)).

(** [ConnectionManager::RemoveConnection] *)
Definition RemoveConnection (h : Heap) (cm : ConnectionManager) (connection : ptr)
  : Res ConnectionManager :=
  assert NDEBUG (IsNormal h connection)
    (Ok (set_connections cm (set_erase connection (connections_ cm)))).

(** [ConnectionManager::FindConnection]: the first connection, in set order,
    whose socket has this peer id. *)
Definition FindConnection (h : Heap) (cm : ConnectionManager) (peer_id : NodeId)
  : option ptr :=
  List.find (fun connection => bool_decide (PeerNodeId h connection = Some peer_id))
            (connections_ cm).

(** [ConnectionManager::NormalConnectionsCount] *)
Definition NormalConnectionsCount (cm : ConnectionManager) : N :=
  N.of_nat (length (connections_ cm)).

(** A run of [AddConnection] calls, with the value each call returned. *)
Fixpoint AddConnection_all (h : Heap) (cm : ConnectionManager) (l : list ptr)
  : Res (ConnectionManager * list bool) :=
  match l with
  | [] => Ok (cm, [])
  | c :: rest =>
      r ← AddConnection h cm c;
      r' ← AddConnection_all h (fst r) rest;
      Ok (fst r', snd r :: snd r')
  end.


(** [ConnectionManager::GetConnection] *)
Definition GetConnection (h : Heap) (cm : ConnectionManager) (peer_id : NodeId)
  : option ptr :=
  FindConnection h cm peer_id.

(** ** Calls that leave these files *)

Inductive Event : Type :=
| Connection_Close (connection : ptr)
| strand_Connection_Close (connection : ptr)
| Connection_StartConnecting (connection : ptr) (peer_id : NodeId)
    (peer_endpoint : Endpoint) (validation_data : string)
    (connect_attempt_timeout lifespan : time_duration) (failure_functor : functor)
| Connection_Ping (connection : ptr) (peer_id : NodeId) (peer_endpoint : Endpoint)
    (ping_functor : functor)
| Socket_UpdatePeerEndpoint (socket : ptr) (endpoint : Endpoint)
| Dispatcher_SetConnectionManager_nullptr.

#[global] Instance Event_eq_dec : EqDecision Event.
Proof. solve_decision. Defined.

(** [ConnectionManager::CloseConnection] *)
Definition CloseConnection (h : Heap) (cm : ConnectionManager) (peer_id : NodeId)
  : bool * list Event :=
  match FindConnection h cm peer_id with
  | None => (false, [])
  | Some connection => (true, [strand_Connection_Close connection])
  end.

(** [ConnectionManager::Close]: detaches the manager from the dispatcher,
    posts [Connection::Close] for every entry and leaves the set as it is. *)
Definition Close (cm : ConnectionManager) : list Event :=
  Dispatcher_SetConnectionManager_nullptr ::
  List.map strand_Connection_Close (connections_ cm).

(** Modelled from the spec: the [Connection] constructor ([connection.cc] is
    not among the sources); "States: Pending (initial, pre-handshake)".  The
    socket of a new connection has no peer yet. *)
Definition Connection_new : Connection :=
  mkConnection kPending (mkSocket Endpoint_default 0 NodeId_default false).

(** [std::make_shared<Connection>(...)]: a new object at an unused address. *)
Definition make_shared (h : Heap) : ptr * Heap :=
  let connection := fresh (dom h) in (connection, <[connection := Connection_new]> h).

(** [ConnectionManager::Connect] *)
Definition Connect (h : Heap) (cm : ConnectionManager) (peer_id : NodeId)
    (peer_endpoint : Endpoint) (validation_data : string)
    (connect_attempt_timeout lifespan : time_duration) (failure_functor : functor)
  : Heap * list Event :=
  match transport_ cm with
  | Some transport =>
      let '(connection, h') := make_shared h in
      (h', [Connection_StartConnecting connection peer_id peer_endpoint validation_data
              connect_attempt_timeout lifespan failure_functor])
  | None => (h, [])
  end.

(** [ConnectionManager::Ping] *)
Definition Ping (h : Heap) (cm : ConnectionManager) (peer_id : NodeId)
    (peer_endpoint : Endpoint) (ping_functor : functor)
  : Res (Heap * list Event) :=
  match transport_ cm with
  | Some transport =>
      assert NDEBUG (bool_decide (is_Some ping_functor))
        (let '(connection, h') := make_shared h in
         Ok (h', [Connection_Ping connection peer_id peer_endpoint ping_functor]))
  | None => Ok (h, [])
  end.

(** ** The socket map: [std::unordered_map<uint32_t, Socket*>]

    Kept as the list of its entries in iteration order; the keys are distinct
    (see [SocketMap_wf]).  The standard does not fix where a new entry goes in
    that order; it goes last here, and nothing below depends on it. *)

(** [sockets_.find(id)] *)
Fixpoint SocketMap_find (id : uint32) (m : SocketMap) : option ptr :=
  match m with
  | [] => None
  | (k, s) :: rest => if k =? id then Some s else SocketMap_find id rest
  end.

(** [sockets_[id] = socket] *)
Fixpoint SocketMap_assign (id : uint32) (socket : ptr) (m : SocketMap) : SocketMap :=
  match m with
  | [] => [(id, socket)]
  | (k, s) :: rest =>
      if k =? id then (k, socket) :: rest else (k, s) :: SocketMap_assign id socket rest
  end.

(** [sockets_.erase(id)] *)
Fixpoint SocketMap_erase (id : uint32) (m : SocketMap) : SocketMap :=
  match m with
  | [] => []
  | (k, s) :: rest => if k =? id then rest else (k, s) :: SocketMap_erase id rest
  end.

Definition uint32_max : N := 4294967295.

(** The loop of [AddSocket].  [draws] are the values the next calls of
    [RandomUint32] return (reduced to 32 bits); the loop is still running
    when they are used up, which is the result [None]. *)
Fixpoint AddSocket_loop (draws : list N) (m : SocketMap) (id : uint32)
  : option (uint32 * list N) :=
  if (id =? 0) || bool_decide (is_Some (SocketMap_find id m)) then
    match draws with
    | [] => None
    | r :: rest => AddSocket_loop rest m (N.land r uint32_max)
    end
  else Some (id, draws).

(** [ConnectionManager::AddSocket]: the manager afterwards, the id returned
    and the random values left. *)
Definition AddSocket (draws : list N) (cm : ConnectionManager) (socket : ptr)
  : option (ConnectionManager * uint32 * list N) :=
  match AddSocket_loop draws (sockets_ cm) 0 with
  | Some (id, rest) =>
      Some (set_sockets cm (SocketMap_assign id socket (sockets_ cm)), id, rest)
  | None => None
  end.

(** [ConnectionManager::RemoveSocket] *)
Definition RemoveSocket (cm : ConnectionManager) (id : uint32) : ConnectionManager :=
  if negb (id =? 0) then set_sockets cm (SocketMap_erase id (sockets_ cm)) else cm.

End Manager.

(** ** Handshake routing *)

(** The fields of a decoded [HandshakePacket] the manager reads. *)
Record HandshakePacket : Type := mkHandshakePacket {
  node_id : NodeId;
  ConnectionReason : Mode
}.

(** A received datagram, as the packet codec (not part of these files) reads
    it: the result of [Packet::DecodeDestinationSocketId] and the result of
    [HandshakePacket::Decode], each absent when decoding fails. *)
Record const_buffer : Type := mkBuffer {
  DecodeDestinationSocketId : option uint32;
  Decode : option HandshakePacket
}.

(** Modelled from the spec: [Socket::UpdatePeerEndpoint] ([core/socket.cc] is
    not among the sources); "update the socket's peer endpoint to sender
    (record the original port as peer_guessed_port)". *)
Definition UpdatePeerEndpoint (h : Heap) (socket : ptr) (endpoint : Endpoint) : Heap :=
  alter (fun o =>
           mkConnection (state_ o)
             (mkSocket endpoint (port (peer_endpoint_ (socket_ o)))
                       (peer_node_id_ (socket_ o)) (is_connected_ (socket_ o))))
        socket h.

Section Dispatch.

(** [IsValid] and [OnPrivateNetwork] of [utils.h], and the timeouts of
    [Parameters], none of them defined in these files. *)
Variable IsValid : Endpoint -> bool.
Variable OnPrivateNetwork : Endpoint -> bool.
Variable bootstrap_connect_timeout : time_duration.
Variable bootstrap_connection_lifespan : time_duration.

(** [ConnectionManager::HandlePingFrom].  Its call of [Connect] leaves the
    failure functor to the default of the declaration, an empty functor. *)
Definition HandlePingFrom (h : Heap) (cm : ConnectionManager)
    (handshake_packet : HandshakePacket) (endpoint : Endpoint)
  : Heap * list Event :=
  if bool_decide (node_id handshake_packet = kThisNodeId_ cm) then (h, [])
  else if IsValid endpoint then
    let bootstrap_and_drop :=
      bool_decide (ConnectionReason handshake_packet = kBootstrapAndDrop) in
    let joining_connection :=
      match FindConnection h cm (node_id handshake_packet) with
      | Some connection => if negb bootstrap_and_drop then Some connection else None
      | None => None
      end in
    match joining_connection with
    | Some connection => (h, [Connection_Close connection])
    | None =>
        Connect h cm (node_id handshake_packet) endpoint ""
                bootstrap_connect_timeout
                (if bootstrap_and_drop then time_duration_default
                 else bootstrap_connection_lifespan)
                None
    end
  else (h, []).

(** The two predicates [GetSocket] searches the socket map with. *)
Definition peer_endpoint_is (h : Heap) (endpoint : Endpoint) (socket_pair : N * positive)
  : bool :=
  bool_decide (PeerEndpoint h socket_pair.2 = Some endpoint).

Definition peer_address_revisable (h : Heap) (endpoint : Endpoint)
    (socket_pair : N * positive) : bool :=
  match h !! socket_pair.2 with
  | Some o =>
      bool_decide (address (peer_endpoint_ (socket_ o)) = address endpoint) &&
      negb (OnPrivateNetwork (peer_endpoint_ (socket_ o))) &&
      negb (is_connected_ (socket_ o))
  | None => false
  end.

(** [ConnectionManager::GetSocket]: the store afterwards, the calls made and
    the socket returned ([None] for [nullptr]). *)
Definition GetSocket (h : Heap) (cm : ConnectionManager) (data : const_buffer)
    (endpoint : Endpoint) : Heap * list Event * option ptr :=
  match sockets_ cm with
  | [] => (h, [], None)
  | _ :: _ =>
      match DecodeDestinationSocketId data with
      | None => (h, [], None)
      | Some socket_id =>
          if socket_id =? 0 then
            match Decode data with
            | None => (h, [], None)
            | Some handshake_packet =>
                if bool_decide (ConnectionReason handshake_packet = kNormal) then
                  match List.find (peer_endpoint_is h endpoint) (sockets_ cm) with
                  | Some socket_pair => (h, [], Some socket_pair.2)
                  | None =>
                      match List.find (peer_address_revisable h endpoint) (sockets_ cm) with
                      | Some socket_pair =>
                          (UpdatePeerEndpoint h socket_pair.2 endpoint,
                           [Socket_UpdatePeerEndpoint socket_pair.2 endpoint],
                           Some socket_pair.2)
                      | None => (h, [], None)
                      end
                  end
                else
                  match List.find (peer_endpoint_is h endpoint) (sockets_ cm) with
                  | None =>
                      let '(h', events) := HandlePingFrom h cm handshake_packet endpoint in
                      (h', events, None)
                  | Some socket_pair => (h, [], Some socket_pair.2)
                  end
            end
          else
            (h, [], SocketMap_find socket_id (sockets_ cm))
      end
  end.

End Dispatch.

(** The normal connections of the set that lead to one peer. *)
Definition normal_connections_to (h : Heap) (cm : ConnectionManager) (peer_id : NodeId)
  : list ptr :=
  List.filter (fun c => IsNormal h c && bool_decide (PeerNodeId h c = Some peer_id))
              (connections_ cm).

(** 1.2.3.4:40000 and 1.2.3.4:40123, a public address; 192.168.0.1:5001, a
    private one. *)
Definition ep_public_40000 : Endpoint := mkEndpoint 16909060 40000.
Definition ep_public_40123 : Endpoint := mkEndpoint 16909060 40123.
Definition ep_private : Endpoint := mkEndpoint 3232235521 5001.

(** ** The transport *)

Module Transport.

Record EndpointPair : Type := mkEndpointPair { local : Endpoint; external : Endpoint }.

(** [asymm::PublicKey], carried and never inspected. *)
Abbreviation PublicKey := string.

Record Contact : Type := mkContact {
  id : NodeId;
  endpoint_pair : EndpointPair;
  public_key : PublicKey
}.

#[global] Instance EndpointPair_eq_dec : EqDecision EndpointPair.
Proof. solve_decision. Defined.

#[global] Instance Contact_eq_dec : EqDecision Contact.
Proof. solve_decision. Defined.

(** [Contact()] *)
Definition Contact_default : Contact :=
  mkContact NodeId_default (mkEndpointPair Endpoint_default Endpoint_default) "".

Inductive NatType : Type := kSymmetric | kOther | kUnknown.

#[global] Instance NatType_eq_dec : EqDecision NatType.
Proof. solve_decision. Defined.

(** The return codes: the two these functions hand out, and any other value
    a ping may end with. *)
Inductive ReturnCode : Type :=
| kSuccess | kNotConnectable | kOtherCode (value : Z).

(** A [std::error_code]: [None] is success (the code tests false), otherwise
    one of [RudpErrors]. *)
Inductive RudpErrors : Type := failed_to_connect | timed_out | other_error (value : Z).
Abbreviation error_code := (option RudpErrors).

(** The closures [DoConnect] builds and hands to the connection manager.
    [handler] is the caller's [ConnectionAddedFunctor], known by a number. *)
Inductive OnConnect : Type :=
| on_connect (handler : N)
| on_connect2 (peer_id : NodeId) (local_endpoint : Endpoint)
    (peer_public_key : PublicKey) (handler : N).

(** The [on_connect] argument of a call of [ConnectionManager::Connect]: a
    closure of [DoConnect], or the closure of the bootstrap of one contact
    (whose body is run in place by [ConnectToBootstrapEndpoint1]). *)
Inductive ConnectFunctor : Type :=
| rendezvous_closure (f : OnConnect)
| bootstrap_closure.

(** Calls the transport makes on its collaborators and on the user's
    functors, in call order. *)
Inductive Call : Type :=
| handler_call (handler : N) (error : error_code)
| ConnectionManager_Connect (peer_id : NodeId) (peer_endpoint : Endpoint)
    (peer_public_key : PublicKey) (connect_attempt_timeout lifespan : time_duration)
    (on_connect : ConnectFunctor)
| ConnectionManager_Ping (peer_id : NodeId) (peer_endpoint : Endpoint)
    (peer_public_key : PublicKey)
| Transport_AddConnection (connection : ptr)
| nat_type_assign (n : NatType)
| on_bootstrap_call (result : ReturnCode) (contact : Contact)
| assertion_failure
| end_dereferenced.

Section Transport.

Variable NDEBUG : bool.
Variable IsValid : Endpoint -> bool.
Variable bootstrap_connect_timeout : time_duration.
Variable bootstrap_connection_lifespan : time_duration.
Variable rendezvous_connect_timeout : time_duration.

(** *** Rendezvous connect *)

(** The closure [DefaultOnConnectHandler] returns; [self] tells whether
    [weak_self.lock()] succeeds when it runs. *)
Definition default_on_connect (self : bool) (error : error_code) (connection : ptr)
  : list Call :=
  match error with
  | Some _ => []
  | None => if self then [Transport_AddConnection connection] else []
  end.

(** Running one of the closures of [DoConnect].  [IsOpen] is
    [multiplexer_->IsOpen()] at that moment. *)
Definition OnConnect_run (IsOpen self : bool) (f : OnConnect) (error : error_code)
    (c : ptr) : list Call :=
  match f with
  | on_connect handler =>
      default_on_connect self error c ++ [handler_call handler error]
  | on_connect2 peer_id local_endpoint peer_public_key handler =>
      if negb IsOpen then
        default_on_connect self error c ++ [handler_call handler error]
      else
        [ConnectionManager_Connect peer_id local_endpoint peer_public_key
           rendezvous_connect_timeout pos_infin (rendezvous_closure (on_connect handler))]
  end.

(** [Transport::DoConnect] *)
Definition DoConnect (IsOpen : bool) (peer_id : NodeId)
    (peer_endpoint_pair : EndpointPair) (peer_public_key : PublicKey) (handler : N)
  : list Call :=
  if negb IsOpen then [handler_call handler (Some failed_to_connect)]
  else if IsValid (external peer_endpoint_pair) then
    let on_connect2 :=
      if negb (bool_decide (local peer_endpoint_pair = external peer_endpoint_pair))
      then on_connect2 peer_id (local peer_endpoint_pair) peer_public_key handler
      else on_connect handler in
    [ConnectionManager_Connect peer_id (external peer_endpoint_pair) peer_public_key
       rendezvous_connect_timeout pos_infin (rendezvous_closure on_connect2)]
  else
    [ConnectionManager_Connect peer_id (local peer_endpoint_pair) peer_public_key
       rendezvous_connect_timeout pos_infin (rendezvous_closure (on_connect handler))].

(** *** Bootstrap *)

(** What the network does with a connect attempt: the error handed to
    [on_connect], or a connection and the peer id and key of its socket. *)
Inductive ConnectResult : Type :=
| connect_error (e : RudpErrors)
| connected (connection : ptr) (PeerNodeId : NodeId) (PeerPublicKey : PublicKey).

(** The collaborators a bootstrap run talks to. *)
Variable connect_result : Contact -> ConnectResult.
Variable RemoteNatDetectionEndpoint : NodeId -> Endpoint.
Variable ping_result : NodeId -> Endpoint -> ReturnCode.

(** [Transport::DetectNatType] *)
Definition DetectNatType (peer_id : NodeId) (peer_public_key : PublicKey)
    (handler : list Call) : list Call :=
  let nat_detection_endpoint := RemoteNatDetectionEndpoint peer_id in
  if negb (IsValid nat_detection_endpoint) then handler
  else
    ConnectionManager_Ping peer_id nat_detection_endpoint peer_public_key ::
    match ping_result peer_id nat_detection_endpoint with
    | kSuccess => handler
    | _ => nat_type_assign kSymmetric :: handler
    end.

(** [Transport::ConnectToBootstrapEndpoint] for one contact. *)
Definition ConnectToBootstrapEndpoint1 (self : bool) (contact : Contact)
    (lifespan : time_duration) (handler : NodeId -> list Call) : list Call :=
  if negb (IsValid (external (endpoint_pair contact))) then handler NodeId_default
  else
    ConnectionManager_Connect (id contact) (external (endpoint_pair contact))
      (public_key contact) bootstrap_connect_timeout lifespan bootstrap_closure ::
    match connect_result contact with
    | connect_error _ => handler NodeId_default
    | connected connection peer_id peer_public_key =>
        default_on_connect self None connection ++
        DetectNatType peer_id peer_public_key (handler peer_id)
    end.

(** [Transport::ConnectToBootstrapEndpoint] over the range [begin, end),
    held as the list of the contacts left. *)
Fixpoint ConnectToBootstrapEndpoint (self : bool) (range : list Contact)
    (lifespan : time_duration) (handler : NodeId -> list Call) : list Call :=
  match range with
  | [] => handler NodeId_default
  | contact :: next =>
      ConnectToBootstrapEndpoint1 self contact lifespan
        (fun peer_id =>
           if negb (NodeId_IsValid peer_id)
           then ConnectToBootstrapEndpoint self next lifespan handler
           else handler peer_id)
  end.

(** The closure [on_bootstrap] of [TryBootstrapping].  When no contact of
    the list has the peer id, a debug build stops at the assertion and a
    release build reads through the end iterator. *)
Definition on_bootstrap (bootstrap_list : list Contact) (peer_id : NodeId) : list Call :=
  if NodeId_IsValid peer_id then
    match List.find (fun contact => bool_decide (id contact = peer_id)) bootstrap_list with
    | Some contact => [on_bootstrap_call kSuccess contact]
    | None => if NDEBUG then [end_dereferenced] else [assertion_failure]
    end
  else [on_bootstrap_call kNotConnectable Contact_default].

(** [Transport::TryBootstrapping] *)
Definition TryBootstrapping (self : bool) (nat_type_ : NatType)
    (local_endpoint : Endpoint) (bootstrap_list : list Contact)
    (bootstrap_off_existing_connection : bool) : list Call :=
  let try_connect :=
    if bootstrap_off_existing_connection
    then negb (bool_decide (nat_type_ = kSymmetric)) else true in
  let lifespan :=
    if bootstrap_off_existing_connection
    then time_duration_default else bootstrap_connection_lifespan in
  if negb try_connect then [on_bootstrap_call kSuccess Contact_default]
  else if NDEBUG ||
          forallb (fun peer =>
                     negb (bool_decide (local_endpoint = local (endpoint_pair peer))) &&
                     negb (bool_decide (local_endpoint = external (endpoint_pair peer))))
                  bootstrap_list
  then ConnectToBootstrapEndpoint self bootstrap_list lifespan (on_bootstrap bootstrap_list)
  else [assertion_failure].

(** *** The run of one bootstrap attempt, told apart from its continuation *)

(** The peer id an attempt on [contact] hands to its handler: [NodeId()] for
    an invalid external endpoint and for a failed connect, the peer id of the
    connection's socket otherwise. *)
Definition attempt_yield (contact : Contact) : NodeId :=
  if negb (IsValid (external (endpoint_pair contact))) then NodeId_default
  else match connect_result contact with
       | connect_error _ => NodeId_default
       | connected _ peer_id _ => peer_id
       end.

(** The calls an attempt on [contact] makes before it runs its handler. *)
Definition attempt_calls (self : bool) (lifespan : time_duration) (contact : Contact)
  : list Call :=
  if negb (IsValid (external (endpoint_pair contact))) then []
  else
    ConnectionManager_Connect (id contact) (external (endpoint_pair contact))
      (public_key contact) bootstrap_connect_timeout lifespan bootstrap_closure ::
    match connect_result contact with
    | connect_error _ => []
    | connected connection peer_id peer_public_key =>
        default_on_connect self None connection ++
        DetectNatType peer_id peer_public_key []
    end.

(** An attempt that yields no valid peer id. *)
Definition attempt_fails (contact : Contact) : Prop :=
  NodeId_IsValid (attempt_yield contact) = false.

Definition is_on_bootstrap_call (c : Call) : bool :=
  match c with
  | on_bootstrap_call _ _ => true
  | _ => false
  end.

End Transport.

(** Two bootstrap contacts that carry the same node id 5 and differ in their
    endpoints; the first does not answer, the second does. *)
Definition contact_5_first : Contact :=
  mkContact 5 (mkEndpointPair ep_private ep_public_40000) "key".
Definition contact_5_second : Contact :=
  mkContact 5 (mkEndpointPair ep_private ep_public_40123) "key".

Definition second_answers (contact : Contact) : ConnectResult :=
  if bool_decide (contact = contact_5_second) then connected 1 5 "key"
  else connect_error timed_out.

(** A contact with node id 4, which does not answer either. *)
Definition contact_4 : Contact :=
  mkContact 4 (mkEndpointPair ep_private ep_public_40000) "key".

(** No peer names a NAT detection endpoint; pings succeed. *)
Definition no_nat_detection (peer_id : NodeId) : Endpoint := Endpoint_default.
Definition ping_succeeds (peer_id : NodeId) (endpoint : Endpoint) : ReturnCode := kSuccess.

(** A peer whose external and local endpoints differ. *)
Definition pair_behind_nat : EndpointPair := mkEndpointPair ep_private ep_public_40000.

End Transport.

(** ** Scenarios used below *)

(** Two connection objects whose sockets both lead to peer 7: one connected
    to the peer's external endpoint, one to its local endpoint. *)
Definition socket_to (peer_id : NodeId) (ep : Endpoint) (connected : bool) : Socket :=
  mkSocket ep 0 peer_id connected.

Definition heap_two_to_peer7 : Heap :=
  <[1%positive := mkConnection kPermanent (socket_to 7 (mkEndpoint 16909060 5000) true)]>
  (<[2%positive := mkConnection kUnvalidated (socket_to 7 (mkEndpoint 3232235777 5001) true)]> ∅).

(** [n] permanent connections, to the peers [1 .. n], at the addresses
    [1 .. n]. *)
Definition heap_of_permanent (n : nat) : Heap :=
  list_to_map
    (List.map (fun i => (Pos.of_nat i,
                         mkConnection kPermanent
                           (socket_to (N.of_nat i) (mkEndpoint 16909060 (N.of_nat i)) true)))
              (seq 1 n)).

Definition addresses (n : nat) : list ptr := List.map Pos.of_nat (seq 1 n).

(** Modelled from the spec: [IsValid] of [utils.h], which is not among the
    sources; "a predicate is_valid(ep) rejects the null endpoint". *)
Definition IsValid_model (ep : Endpoint) : bool :=
  negb (bool_decide (ep = Endpoint_default)).

(** Modelled from the spec: [OnPrivateNetwork] of [utils.h], which is not
    among the sources; "is_private(ep) distinguishes RFC1918/loopback/link-local
    from public addresses".  Addresses are IPv4 addresses as 32-bit numbers. *)
Definition OnPrivateNetwork_model (ep : Endpoint) : bool :=
  let a := address ep in
  (N.shiftr a 24 =? 10) ||            (* 10.0.0.0/8 *)
  (N.shiftr a 20 =? 2753) ||          (* 172.16.0.0/12 *)
  (N.shiftr a 16 =? 49320) ||         (* 192.168.0.0/16 *)
  (N.shiftr a 24 =? 127) ||           (* 127.0.0.0/8 *)
  (N.shiftr a 16 =? 43518).           (* 169.254.0.0/16 *)

(** Values of [Parameters] for the scenarios. *)
Definition scenario_bootstrap_connect_timeout : time_duration := milliseconds 2000.
Definition scenario_bootstrap_connection_lifespan : time_duration := milliseconds 600000.
Definition scenario_rendezvous_connect_timeout : time_duration := milliseconds 5000.

(** A socket (of the connection at address 3) waiting for a handshake from
    1.2.3.4:40000, registered under id 12. *)
Definition heap_waiting : Heap :=
  <[3%positive := mkConnection kPending (socket_to 7 ep_public_40000 false)]> ∅.

Definition manager_waiting : ConnectionManager :=
  set_sockets (ConnectionManager_new 9 1) [(12, 3%positive)].

(** A handshake datagram, destination socket id 0. *)
Definition handshake_from (peer_id : NodeId) (reason : Mode) : const_buffer :=
  mkBuffer (Some 0) (Some (mkHandshakePacket peer_id reason)).

(** The invariant the set is meant to keep: for every peer id at most one
    normal connection. *)
Definition one_normal_per_peer (h : Heap) (cm : ConnectionManager) : Prop :=
  forall peer_id, (length (normal_connections_to h cm peer_id) <= 1)%nat.

(** The order invariant of the connection set. *)
Definition sorted_set (l : list ptr) : Prop := StronglySorted Pos.lt l.

(** The invariant of the socket map: distinct ids, none of them zero, all
    of them 32-bit values. *)
Definition SocketMap_wf (m : SocketMap) : Prop :=
  NoDup (m.*1) /\ Forall (fun p : N * positive => p.1 <> 0 /\ p.1 <= uint32_max) m.

(** A random value that ends the loop of [AddSocket]: not zero and not the
    id of a registered socket. *)
Definition usable (m : SocketMap) (r : N) : bool :=
  negb ((N.land r uint32_max =? 0) ||
        bool_decide (is_Some (SocketMap_find (N.land r uint32_max) m))).

(** The managers a run of the program can hold: a new one, and what the
    operations on the two containers make of it. *)
Inductive live : ConnectionManager -> Prop :=
| live_new transport this_node_id :
    live (ConnectionManager_new transport this_node_id)
| live_AddSocket draws cm socket cm' id rest :
    live cm -> AddSocket draws cm socket = Some (cm', id, rest) -> live cm'
| live_RemoveSocket cm id :
    live cm -> live (RemoveSocket cm id)
| live_AddConnection NDEBUG h cm connection cm' b :
    live cm -> AddConnection NDEBUG h cm connection = Ok (cm', b) -> live cm'
| live_RemoveConnection NDEBUG h cm connection cm' :
    live cm -> RemoveConnection NDEBUG h cm connection = Ok cm' -> live cm'.

(** ** The remaining operations of the manager *)

(** Work handed to the strand by [Send]. *)
Inductive StrandTask : Type :=
| strand_StartSending (connection : ptr) (message : string)
    (message_sent_functor : functor).

(** [ConnectionManager::Send] *)
Definition Send (h : Heap) (cm : ConnectionManager) (peer_id : NodeId)
    (message : string) (message_sent_functor : functor) : bool * list StrandTask :=
  match FindConnection h cm peer_id with
  | None => (false, [])
  | Some connection => (true, [strand_StartSending connection message message_sent_functor])
  end.

Section Permanent.

Variable OnPrivateNetwork : Endpoint -> bool.

(** [Connection::MakePermanent] ([connection.cc] is not among the sources):
    what it makes of the store. *)
Variable MakePermanent : Heap -> ptr -> bool -> Heap.

(** [ConnectionManager::MakeConnectionPermanent]: the store afterwards, the
    value returned and the endpoint left in the reference parameter. *)
Definition MakeConnectionPermanent (h : Heap) (cm : ConnectionManager)
    (peer_id : NodeId) (validated : bool) : Heap * bool * Endpoint :=
  let peer_endpoint := Endpoint_default in
  match FindConnection h cm peer_id with
  | None => (h, false, peer_endpoint)
  | Some connection =>
      let h' := MakePermanent h connection validated in
      match PeerEndpoint h' connection with
      | Some endpoint =>
          (h', true, if negb (OnPrivateNetwork endpoint) then endpoint else peer_endpoint)
      | None => (h', true, peer_endpoint)
      end
  end.

End Permanent.

(** Modelled from the spec: [Connection::MakePermanent] ([connection.cc] is
    not among the sources); "transitions an existing connection to
    Permanent". *)
Definition MakePermanent_model (h : Heap) (connection : ptr) (validated : bool) : Heap :=
  alter (fun o => mkConnection kPermanent (socket_ o)) connection h.

(** A connection (at address 4) to peer 8 on a private network. *)
Definition heap_private_peer : Heap :=
  <[4%positive := mkConnection kUnvalidated (socket_to 8 ep_private true)]> heap_two_to_peer7.

(** ** A whole rendezvous connect

    [DoConnect] only starts a connect; the closure it passes runs when the
    connection manager reports the outcome.  An [Outcome] is one such report:
    whether the multiplexer is open and the transport alive at that moment,
    and the arguments the closure is run with. *)

Module Rendezvous.

Import Transport.

Record Outcome : Type := mkOutcome {
  IsOpen_then : bool;
  self_then : bool;
  error_then : error_code;
  connection_then : ptr
}.

(** The closures of the connects a list of calls starts. *)
Fixpoint started (calls : list Call) : list OnConnect :=
  match calls with
  | [] => []
  | ConnectionManager_Connect _ _ _ _ _ (rendezvous_closure f) :: rest => f :: started rest
  | _ :: rest => started rest
  end.

Section Run.

Variable IsValid : Endpoint -> bool.
Variable rendezvous_connect_timeout : time_duration.

(** The closures waiting for an outcome are run in the order their connects
    were started, each on the next outcome reported. *)
Fixpoint run (outcomes : list Outcome) (waiting : list OnConnect) : list Call :=
  match outcomes, waiting with
  | o :: outcomes', f :: waiting' =>
      let calls := OnConnect_run rendezvous_connect_timeout (IsOpen_then o) (self_then o) f
                     (error_then o) (connection_then o) in
      calls ++ run outcomes' (waiting' ++ started calls)
  | _, _ => []
  end.

(** [Transport::DoConnect] followed by the closures it sets off. *)
Definition rendezvous (IsOpen : bool) (peer_id : NodeId) (peer_endpoint_pair : EndpointPair)
    (peer_public_key : PublicKey) (handler : N) (outcomes : list Outcome) : list Call :=
  let calls := DoConnect IsValid rendezvous_connect_timeout IsOpen peer_id
                 peer_endpoint_pair peer_public_key handler in
  calls ++ run outcomes (started calls).

End Run.

Definition is_handler_call (c : Call) : bool :=
  match c with handler_call _ _ => true | _ => false end.

Definition is_Connect_call (c : Call) : bool :=
  match c with ConnectionManager_Connect _ _ _ _ _ _ => true | _ => false end.

Definition is_AddConnection_call (c : Call) : bool :=
  match c with Transport_AddConnection _ => true | _ => false end.

End Rendezvous.

(** ** The callback slots of the transport *)

Module Callbacks.

#[global] Instance RudpErrors_eq_dec : EqDecision Transport.RudpErrors.
Proof. solve_decision. Defined.

(** [ConnectionManager::AddConnection], under the name the transport calls. *)
Abbreviation connection_manager_AddConnection := AddConnection.

(** The members of [Transport] its announcing functions read: the three
    slots guarded by [callback_mutex_] (empty or holding the user's functor)
    and whether a connection manager has been created. *)
Record Transport : Type := mkTransport {
  on_message_ : functor;
  on_connection_added_ : functor;
  on_connection_lost_ : functor;
  connection_manager_ : bool
}.

(** Calls made on the user's functors and on the collaborators. *)
Inductive Call : Type :=
| on_message_call (slot : N) (peer_id : NodeId) (message : list N)
| on_connection_added_call (slot : N) (peer_id : NodeId) (temporary : bool)
    (connection : ptr)
| on_connection_lost_call (slot : N) (peer_id : NodeId) (temporary timed_out : bool)
| Connection_Close_call (connection : ptr)
| ConnectionManager_Close_call
| Multiplexer_Close_call.

(** [Transport::Close] *)
Definition Close (t : Transport) : Transport * list Call :=
  (mkTransport None None None (connection_manager_ t),
   (if connection_manager_ t then [ConnectionManager_Close_call] else []) ++
   [Multiplexer_Close_call]).

(** The closure [DefaultOnReceiveHandler] returns. *)
Definition DefaultOnReceiveHandler (self : bool) (t : Transport) (peer_id : NodeId)
    (message : list N) : list Call :=
  if negb self then []
  else match on_message_ t with
       | None => []
       | Some handler => [on_message_call handler peer_id message]
       end.

(** [Transport::RemoveConnection] *)
Definition RemoveConnection (t : Transport) (h : Heap) (connection : ptr)
    (timed_out : bool) : list Call :=
  match h !! connection with
  | Some o =>
      if negb (bool_decide (state_ o = kDuplicate)) then
        match on_connection_lost_ t with
        | Some local_callback =>
            [on_connection_lost_call local_callback (peer_node_id_ (socket_ o))
               (bool_decide (state_ o = kTemporary)) timed_out]
        | None => []
        end
      else []
  | None => []
  end.

(** The closure [DefaultOnCloseHandler] returns. *)
Definition DefaultOnCloseHandler (self : bool) (t : Transport) (h : Heap)
    (error : Transport.error_code) (connection : ptr) : list Call :=
  if self
  then RemoveConnection t h connection (bool_decide (error = Some Transport.timed_out))
  else [].

Section AddConnection.

Variable NDEBUG : bool.

(** The values of [kInvalidConnection] and [kConnectionAlreadyExists]
    ([return_codes.h] is not among the sources). *)
Variable kInvalidConnection : Z.
Variable kConnectionAlreadyExists : Z.

(** The tail of [Transport::AddConnection]: the announcement. *)
Definition announce_added (t : Transport) (h : Heap) (connection : ptr) : list Call :=
  match on_connection_added_ t, h !! connection with
  | Some local_callback, Some o =>
      [on_connection_added_call local_callback (peer_node_id_ (socket_ o))
         (bool_decide (state_ o = kTemporary)) connection]
  | _, _ => []
  end.

(** [Transport::AddConnection].  The manager's [AddConnection] of these
    files returns a [bool]; the comparisons with the two return codes are
    made on its integer value. *)
Definition AddConnection (t : Transport) (h : Heap) (cm : ConnectionManager)
    (connection : ptr) : Res (ConnectionManager * list Call) :=
  if negb (state_is h connection kTemporary) then
    match connection_manager_AddConnection NDEBUG h cm connection with
    | AssertionFailed => AssertionFailed
    | Ok (cm', result) =>
        if (Z.b2z result =? kInvalidConnection)%Z
        then Ok (cm', [Connection_Close_call connection])
        else if (Z.b2z result =? kConnectionAlreadyExists)%Z
        then Ok (cm', [])
        else Ok (cm', announce_added t h connection)
    end
  else Ok (cm, announce_added t h connection).

End AddConnection.

(** The calls that go to a functor of the user. *)
Definition is_user_call (c : Call) : bool :=
  match c with
  | on_message_call _ _ _ | on_connection_added_call _ _ _ _
  | on_connection_lost_call _ _ _ _ => true
  | _ => false
  end.

End Callbacks.

(** * Properties *)

(** ** The connection set *)

Lemma set_insert_length c l :
  length (set_insert c l).1 = (length l + (if (set_insert c l).2 then 1 else 0))%nat.
Proof.
  induction l as [|x xs IH]; simpl; [reflexivity|].
  destruct (c <? x)%positive; simpl; [lia|].
  destruct (c =? x)%positive; simpl; [lia|].
  destruct (set_insert c xs) as [xs' b]; simpl in *. lia.
Qed.

Lemma set_insert_elem c l x :
  x ∈ (set_insert c l).1 <-> x = c \/ x ∈ l.
Proof.
  induction l as [|y ys IH]; simpl.
  - rewrite list_elem_of_singleton, elem_of_nil. tauto.
  - destruct (c <? y)%positive; simpl; [apply elem_of_cons|].
    destruct (c =? y)%positive eqn:E; simpl.
    + apply Pos.eqb_eq in E. subst. rewrite elem_of_cons. tauto.
    + destruct (set_insert c ys) as [ys' b]; simpl in *.
      rewrite !elem_of_cons, IH. tauto.
Qed.

Lemma set_insert_sorted c l : sorted_set l -> sorted_set (set_insert c l).1.
Proof.
  unfold sorted_set. induction l as [|y ys IH]; simpl; intros Hs.
  - repeat constructor.
  - destruct (c <? y)%positive eqn:Hlt; simpl.
    + apply Pos.ltb_lt in Hlt. constructor; [assumption|].
      inversion Hs as [|? ? Hys Hall]; subst. constructor; [assumption|].
      eapply Forall_impl; [exact Hall|]. intros z Hz. simpl in *. lia.
    + destruct (c =? y)%positive eqn:Heq; simpl; [assumption|].
      apply Pos.ltb_ge in Hlt. apply Pos.eqb_neq in Heq.
      inversion Hs as [|? ? Hys Hall]; subst.
      pose proof (set_insert_elem c ys) as Hel.
      destruct (set_insert c ys) as [ys' b]; simpl in *.
      constructor; [auto|].
      apply Forall_forall. intros z Hz. apply Hel in Hz as [->|Hz]; [lia|].
      rewrite Forall_forall in Hall. auto.
Qed.

Lemma set_insert_second c l :
  sorted_set l -> ((set_insert c l).2 = false <-> c ∈ l).
Proof.
  unfold sorted_set. induction l as [|y ys IH]; simpl; intros Hs.
  - split; [discriminate|]. intros H. inversion H.
  - inversion Hs as [|? ? Hys Hall]; subst. rewrite Forall_forall in Hall.
    destruct (c <? y)%positive eqn:Hlt; simpl.
    + apply Pos.ltb_lt in Hlt. split; [discriminate|].
      intros [->|Hin]%elem_of_cons; [lia|]. apply Hall in Hin. lia.
    + destruct (c =? y)%positive eqn:Heq; simpl.
      * apply Pos.eqb_eq in Heq. subst. split; [intros _; left|reflexivity].
      * apply Pos.eqb_neq in Heq. specialize (IH Hys).
        destruct (set_insert c ys) as [ys' b]; simpl in *.
        rewrite IH, elem_of_cons.
        split; [auto|intros [?|?]; [congruence|assumption]].
Qed.

Lemma set_erase_elem c l x :
  sorted_set l -> (x ∈ set_erase c l <-> x ∈ l /\ x <> c).
Proof.
  unfold sorted_set. induction l as [|y ys IH]; simpl; intros Hs.
  - split; [intros H; inversion H|intros [H _]; inversion H].
  - inversion Hs as [|? ? Hys Hall]; subst. rewrite Forall_forall in Hall.
    destruct (c =? y)%positive eqn:Heq.
    + apply Pos.eqb_eq in Heq. subst. rewrite elem_of_cons. split.
      * intros Hin. split; [auto|]. intros ->. apply Hall in Hin. lia.
      * intros [[->|Hin] Hne]; [congruence|assumption].
    + apply Pos.eqb_neq in Heq. rewrite !elem_of_cons, (IH Hys). split.
      * intros [->|[Hin Hne]]; [split; [auto|congruence]|auto].
      * intros [[->|Hin] Hne]; auto.
Qed.

(** What [AddConnection] does once its first assertion holds: the result
    only depends on the state of the connection and on whether this very
    object is in the set; the peer id of its socket is not looked at. *)
Lemma AddConnection_not_normal NDEBUG h cm c :
  state_is h c kPending = false -> IsNormal h c = false ->
  AddConnection NDEBUG h cm c = Ok (cm, false).
Proof.
  intros Hp Hn. unfold AddConnection, assert. rewrite Hp, Hn.
  rewrite orb_true_r. reflexivity.
Qed.

Lemma AddConnection_normal_absent NDEBUG h cm c :
  IsNormal h c = true -> sorted_set (connections_ cm) -> c ∉ connections_ cm ->
  exists cm',
    AddConnection NDEBUG h cm c = Ok (cm', true) /\
    (forall x, x ∈ connections_ cm' <-> x = c \/ x ∈ connections_ cm) /\
    sorted_set (connections_ cm') /\
    sockets_ cm' = sockets_ cm.
Proof.
  intros Hn Hs Hnot. unfold AddConnection, assert.
  assert (Hp : state_is h c kPending = false).
  { unfold IsNormal, state_is in *. apply bool_decide_eq_false. intros E.
    rewrite E in Hn. vm_compute in Hn. discriminate. }
  rewrite Hp, Hn, orb_true_r.
  pose proof (set_insert_second c _ Hs) as H2.
  pose proof (set_insert_elem c (connections_ cm)) as He.
  pose proof (set_insert_sorted c _ Hs) as Hs'.
  destruct (set_insert c (connections_ cm)) as [l' b]; simpl in *.
  destruct b; [|tauto].
  rewrite orb_true_r. eexists. split; [reflexivity|]. simpl. auto.
Qed.

Lemma AddConnection_size NDEBUG h cm c cm' b :
  AddConnection NDEBUG h cm c = Ok (cm', b) ->
  length (connections_ cm') = (length (connections_ cm) + (if b then 1 else 0))%nat.
Proof.
  unfold AddConnection, assert.
  destruct (NDEBUG || negb (state_is h c kPending)); [|discriminate].
  destruct (IsNormal h c).
  - pose proof (set_insert_length c (connections_ cm)) as Hl.
    destruct (set_insert c (connections_ cm)) as [l' b']; simpl in *.
    destruct (NDEBUG || b'); [|discriminate].
    intros [= <- <-]. simpl. exact Hl.
  - intros [= <- <-]. lia.
Qed.

(** C1: two connection objects to one peer, both in a normal state, are both
    accepted by [AddConnection], in a debug and in a release build; the
    manager reached that way holds two normal connections to that peer, so
    [one_normal_per_peer] fails there, and [FindConnection] only ever sees the
    first of the two. *)
Theorem AddConnection_two_normal_one_peer :
  forall NDEBUG,
    let cm0 := ConnectionManager_new 9 1 in
    let cm1 := set_connections cm0 [1%positive] in
    let cm2 := set_connections cm0 [1%positive; 2%positive] in
    AddConnection NDEBUG heap_two_to_peer7 cm0 1 = Ok (cm1, true) /\
    AddConnection NDEBUG heap_two_to_peer7 cm1 2 = Ok (cm2, true) /\
    live cm2 /\
    normal_connections_to heap_two_to_peer7 cm2 7 = [1%positive; 2%positive] /\
    ~ one_normal_per_peer heap_two_to_peer7 cm2 /\
    FindConnection heap_two_to_peer7 cm2 7 = Some 1%positive.
Proof.
  intros NDEBUG cm0 cm1 cm2.
  assert (H1 : AddConnection NDEBUG heap_two_to_peer7 cm0 1 = Ok (cm1, true))
    by (destruct NDEBUG; vm_compute; reflexivity).
  assert (H2 : AddConnection NDEBUG heap_two_to_peer7 cm1 2 = Ok (cm2, true))
    by (destruct NDEBUG; vm_compute; reflexivity).
  split; [exact H1|]. split; [exact H2|]. split.
  { eapply live_AddConnection; [|exact H2].
    eapply live_AddConnection; [|exact H1]. apply live_new. }
  split; [vm_compute; reflexivity|]. split; [|vm_compute; reflexivity].
  intros Hinv. specialize (Hinv 7). vm_compute in Hinv. lia.
Qed.

(** C2: with a connection to peer 7 already in the set (and found there by
    [FindConnection]), [AddConnection] of a second connection object to
    peer 7 inserts it and returns [true]; nothing reports that the peer is
    already connected, and the set is not left unchanged. *)
Theorem AddConnection_peer_already_connected :
  forall NDEBUG,
    let cm1 := set_connections (ConnectionManager_new 9 1) [1%positive] in
    FindConnection heap_two_to_peer7 cm1 7 = Some 1%positive /\
    PeerNodeId heap_two_to_peer7 2 = Some 7 /\
    state heap_two_to_peer7 2 = Some kUnvalidated /\
    AddConnection NDEBUG heap_two_to_peer7 cm1 2 =
      Ok (set_connections cm1 [1%positive; 2%positive], true).
Proof.
  intros NDEBUG cm1. destruct NDEBUG; vm_compute; repeat split; reflexivity.
Qed.

Lemma AddConnection_all_size NDEBUG h l : forall cm cm' rs,
  AddConnection_all NDEBUG h cm l = Ok (cm', rs) ->
  length rs = length l /\
  length (connections_ cm') =
    (length (connections_ cm) + length (List.filter (fun b : bool => b) rs))%nat.
Proof.
  induction l as [|c rest IH]; simpl; intros cm cm' rs.
  - intros [= <- <-]. simpl. lia.
  - unfold mbind, Res_mbind.
    destruct (AddConnection NDEBUG h cm c) as [[cm1 b]|] eqn:E1; simpl; [|discriminate].
    destruct (AddConnection_all NDEBUG h cm1 rest) as [[cm2 rs2]|] eqn:E2; simpl;
      [|discriminate].
    intros [= <- <-]. apply AddConnection_size in E1. apply IH in E2 as [E2 E3].
    simpl. destruct b; simpl; lia.
Qed.

(** C9, the claim as stated fails: 51 permanent connections to 51 peers are
    all accepted in a row, which takes the set past [kMaxConnections]. *)
Lemma AddConnection_all_past_kMaxConnections :
  AddConnection_all false (heap_of_permanent 51) (ConnectionManager_new 9 1000)
                    (addresses 51) =
    Ok (set_connections (ConnectionManager_new 9 1000) (addresses 51), replicate 51 true) /\
  NormalConnectionsCount (set_connections (ConnectionManager_new 9 1000) (addresses 51)) = 51 /\
  ~ (NormalConnectionsCount (set_connections (ConnectionManager_new 9 1000) (addresses 51))
       <= kMaxConnections).
Proof.
  split; [vm_compute; reflexivity|]. split; [vm_compute; reflexivity|].
  vm_compute. intros H. apply H. reflexivity.
Qed.

(** ** The socket registry *)

Lemma SocketMap_find_None id m : SocketMap_find id m = None <-> id ∉ m.*1.
Proof.
  induction m as [|[k s] rest IH]; simpl.
  - split; [intros _ H; inversion H|reflexivity].
  - destruct (k =? id) eqn:E.
    + apply N.eqb_eq in E. subst. split; [discriminate|]. intros H. exfalso. apply H. left.
    + apply N.eqb_neq in E. rewrite IH, not_elem_of_cons.
      split; [intros H; split; [congruence|assumption]|intros [_ H]; exact H].
Qed.

Lemma SocketMap_find_Some id m s : SocketMap_find id m = Some s -> (id, s) ∈ m.
Proof.
  induction m as [|[k s'] rest IH]; simpl; [discriminate|].
  destruct (k =? id) eqn:E.
  - apply N.eqb_eq in E. intros [= ->]. subst. left.
  - intros H. right. auto.
Qed.

Lemma SocketMap_assign_absent id socket m :
  id ∉ m.*1 -> SocketMap_assign id socket m = m ++ [(id, socket)].
Proof.
  induction m as [|[k s] rest IH]; simpl; [reflexivity|].
  rewrite not_elem_of_cons. intros [Hne Hin].
  destruct (k =? id) eqn:E; [apply N.eqb_eq in E; congruence|].
  rewrite IH by assumption. reflexivity.
Qed.

Lemma SocketMap_find_assign id socket m :
  SocketMap_find id (SocketMap_assign id socket m) = Some socket.
Proof.
  induction m as [|[k s] rest IH]; simpl.
  - rewrite N.eqb_refl. reflexivity.
  - destruct (k =? id) eqn:E; simpl; rewrite E; [reflexivity|exact IH].
Qed.

Lemma SocketMap_find_assign_other id id' socket m :
  id <> id' -> SocketMap_find id' (SocketMap_assign id socket m) = SocketMap_find id' m.
Proof.
  intros Hne. induction m as [|[k s] rest IH]; simpl.
  - destruct (id =? id') eqn:E; [apply N.eqb_eq in E; congruence|reflexivity].
  - destruct (k =? id) eqn:E; simpl.
    + apply N.eqb_eq in E. subst.
      destruct (id =? id') eqn:E'; [apply N.eqb_eq in E'; congruence|reflexivity].
    + destruct (k =? id'); [reflexivity|exact IH].
Qed.

Lemma SocketMap_wf_assign id socket m :
  SocketMap_wf m -> id <> 0 -> id <= uint32_max -> id ∉ m.*1 ->
  SocketMap_wf (SocketMap_assign id socket m).
Proof.
  intros [Hnd Hall] Hz Hle Hin. rewrite SocketMap_assign_absent by assumption.
  split.
  - rewrite fmap_app. simpl. apply NoDup_app. split; [assumption|].
    split; [|apply NoDup_singleton].
    intros x Hx Hx'. apply list_elem_of_singleton in Hx'. subst. contradiction.
  - apply Forall_app. split; [assumption|]. constructor; [simpl; auto|constructor].
Qed.

Lemma SocketMap_erase_absent id m : id ∉ m.*1 -> SocketMap_erase id m = m.
Proof.
  induction m as [|[k s] rest IH]; simpl; [reflexivity|].
  rewrite not_elem_of_cons. intros [Hne Hin].
  destruct (k =? id) eqn:E; [apply N.eqb_eq in E; congruence|].
  rewrite IH by assumption. reflexivity.
Qed.

Lemma SocketMap_erase_keys id m x :
  NoDup (m.*1) -> (x ∈ (SocketMap_erase id m).*1 <-> x ∈ m.*1 /\ x <> id).
Proof.
  induction m as [|[k s] rest IH]; simpl; intros Hnd.
  - split; [intros H; inversion H|intros [H _]; inversion H].
  - apply NoDup_cons in Hnd as [Hk Hnd]. destruct (k =? id) eqn:E.
    + apply N.eqb_eq in E. subst. rewrite elem_of_cons. split.
      * intros Hin. split; [auto|]. intros ->. contradiction.
      * intros [[->|Hin] Hne]; [congruence|assumption].
    + apply N.eqb_neq in E. simpl. rewrite !elem_of_cons, (IH Hnd). split.
      * intros [->|[Hin Hne]]; [split; [auto|congruence]|auto].
      * intros [[->|Hin] Hne]; auto.
Qed.

Lemma SocketMap_erase_sublist id m : sublist (SocketMap_erase id m) m.
Proof.
  induction m as [|[k s] rest IH]; simpl; [constructor|].
  destruct (k =? id); [apply sublist_cons; reflexivity|apply sublist_skip; exact IH].
Qed.

Lemma SocketMap_wf_erase id m : SocketMap_wf m -> SocketMap_wf (SocketMap_erase id m).
Proof.
  intros [Hnd Hall]. pose proof (SocketMap_erase_sublist id m) as Hsub. split.
  - eapply sublist_NoDup; [exact Hnd|apply fmap_sublist; exact Hsub].
  - rewrite Forall_forall in Hall |- *. intros x Hx. apply Hall.
    eapply elem_of_sublist; eassumption.
Qed.

Lemma SocketMap_find_erase id m :
  NoDup (m.*1) -> SocketMap_find id (SocketMap_erase id m) = None.
Proof.
  intros Hnd. apply SocketMap_find_None. rewrite SocketMap_erase_keys by assumption.
  intros [_ Hne]. congruence.
Qed.

Lemma SocketMap_find_erase_other id id' m :
  id <> id' -> SocketMap_find id' (SocketMap_erase id m) = SocketMap_find id' m.
Proof.
  intros Hne. induction m as [|[k s] rest IH]; simpl; [reflexivity|].
  destruct (k =? id) eqn:E; simpl.
  - apply N.eqb_eq in E. subst.
    destruct (id =? id') eqn:E'; [apply N.eqb_eq in E'; congruence|reflexivity].
  - destruct (k =? id'); [reflexivity|exact IH].
Qed.

Lemma AddSocket_loop_eq draws m id :
  AddSocket_loop draws m id =
  if (id =? 0) || bool_decide (is_Some (SocketMap_find id m)) then
    match draws with
    | [] => None
    | r :: rest => AddSocket_loop rest m (N.land r uint32_max)
    end
  else Some (id, draws).
Proof. destruct draws; reflexivity. Qed.

Lemma land_uint32_max r : N.land r uint32_max <= uint32_max.
Proof.
  change uint32_max with (N.ones 32). rewrite N.land_ones.
  pose proof (N.mod_upper_bound r (2 ^ 32)) as H.
  change (N.ones 32) with (N.pred (2 ^ 32)). lia.
Qed.

Lemma loop_test_false m id :
  (id =? 0) || bool_decide (is_Some (SocketMap_find id m)) = false ->
  id <> 0 /\ SocketMap_find id m = None.
Proof.
  intros [E1 E2]%orb_false_elim. apply N.eqb_neq in E1.
  apply bool_decide_eq_false in E2. split; [assumption|].
  destruct (SocketMap_find id m); [exfalso; apply E2; eauto|reflexivity].
Qed.

(** The loop ends on the first random value that is usable, having thrown
    away the ones before it. *)
Lemma AddSocket_loop_Some draws : forall m id0 id rest,
  AddSocket_loop draws m id0 = Some (id, rest) ->
  id <> 0 /\ SocketMap_find id m = None /\
  ((id = id0 /\ rest = draws) \/
   exists skipped r,
     draws = skipped ++ r :: rest /\
     Forall (fun x => usable m x = false) skipped /\
     id = N.land r uint32_max).
Proof.
  induction draws as [|r draws IH]; intros m id0 id rest; rewrite AddSocket_loop_eq.
  - destruct (_ || _) eqn:E; [discriminate|]. intros [= <- <-].
    apply loop_test_false in E as [E1 E2]. auto.
  - destruct (_ || _) eqn:E.
    + intros H. destruct (IH _ _ _ _ H) as (Hz & Hf & Hcase). split; [assumption|].
      split; [assumption|]. right. destruct Hcase as [[-> ->]|(sk & r' & -> & Hsk & ->)].
      * exists [], r. simpl. auto.
      * exists (r :: sk), r'. simpl. split; [reflexivity|]. split; [|reflexivity].
        constructor; [|assumption]. unfold usable.
        rewrite AddSocket_loop_eq in H. destruct (_ || _) eqn:E' in H.
        -- rewrite E'. reflexivity.
        -- injection H as H1 H2. exfalso.
           assert (Hlen : length (sk ++ r' :: rest) = length rest) by (f_equal; assumption).
           rewrite length_app in Hlen. simpl in Hlen. lia.
    + intros [= <- <-]. apply loop_test_false in E as [E1 E2]. auto.
Qed.

Lemma AddSocket_loop_None draws : forall m id0,
  AddSocket_loop draws m id0 = None -> Forall (fun x => usable m x = false) draws.
Proof.
  induction draws as [|r draws IH]; intros m id0; [constructor|].
  rewrite AddSocket_loop_eq. destruct (_ || _); [|discriminate].
  intros H. constructor; [|eapply IH; exact H].
  rewrite AddSocket_loop_eq in H. unfold usable.
  destruct (_ || _); [reflexivity|]. destruct draws; discriminate.
Qed.

Lemma live_invariant cm :
  live cm -> SocketMap_wf (sockets_ cm) /\ sorted_set (connections_ cm).
Proof.
  induction 1 as [t i|draws cm socket cm' id rest Hl [IHw IHs] Hadd|cm id Hl [IHw IHs]
                 |nd h cm c cm' b Hl [IHw IHs] Hadd|nd h cm c cm' Hl [IHw IHs] Hrm].
  - simpl. split; [split; constructor|constructor].
  - unfold AddSocket in Hadd.
    destruct (AddSocket_loop draws (sockets_ cm) 0) as [[id' rest']|] eqn:E; [|discriminate].
    injection Hadd as <- <- <-. simpl. split; [|assumption].
    apply AddSocket_loop_Some in E as (Hz & Hf & Hcase).
    apply SocketMap_wf_assign; try assumption.
    + destruct Hcase as [[-> _]|(sk & r & _ & _ & ->)]; [congruence|apply land_uint32_max].
    + apply SocketMap_find_None. assumption.
  - unfold RemoveSocket. destruct (negb (id =? 0)); simpl; [|auto].
    split; [apply SocketMap_wf_erase|]; assumption.
  - unfold AddConnection, assert in Hadd.
    destruct (nd || negb (state_is h c kPending)); [|discriminate].
    destruct (IsNormal h c).
    + pose proof (set_insert_sorted c _ IHs) as Hs.
      destruct (set_insert c (connections_ cm)) as [l' b']; simpl in *.
      destruct (nd || b'); [|discriminate]. injection Hadd as <- <-. simpl. auto.
    + injection Hadd as <- <-. auto.
  - unfold RemoveConnection, assert in Hrm.
    destruct (nd || IsNormal h c); [|discriminate]. injection Hrm as <-. simpl.
    split; [assumption|]. clear -IHs. unfold sorted_set in *.
    induction IHs as [|x xs Hs IH Hall]; simpl; [constructor|].
    destruct (c =? x)%positive; [assumption|]. constructor; [assumption|].
    rewrite Forall_forall in Hall |- *. intros y Hy. apply Hall.
    apply set_erase_elem in Hy; [tauto|exact Hs].
Qed.

Lemma AddConnection_all_live NDEBUG h l : forall cm cm' rs,
  live cm -> AddConnection_all NDEBUG h cm l = Ok (cm', rs) -> live cm'.
Proof.
  induction l as [|c rest IH]; simpl; intros cm cm' rs Hlive.
  - intros [= <- _]. exact Hlive.
  - unfold mbind, Res_mbind.
    destruct (AddConnection NDEBUG h cm c) as [[cm1 b]|] eqn:E1; simpl; [|discriminate].
    destruct (AddConnection_all NDEBUG h cm1 rest) as [[cm2 rs2]|] eqn:E2; simpl;
      [|discriminate].
    intros [= <- _]. eapply IH; [|exact E2]. eapply live_AddConnection; eassumption.
Qed.

(** C9 (as amended): [AddConnection] compares nothing with
    [kMaxConnections].  After any run of calls the set has grown by exactly
    the number of calls that returned [true], so its size is bounded by the
    number of calls made, not by the cap; and whatever size the set has
    reached, a normal connection that is not in it is accepted: the call
    returns [true] and the set grows by one. *)
Theorem AddConnection_all_growth NDEBUG h cm l cm' rs :
  AddConnection_all NDEBUG h cm l = Ok (cm', rs) ->
  NormalConnectionsCount cm' =
    NormalConnectionsCount cm + N.of_nat (length (List.filter (fun b : bool => b) rs)) /\
  NormalConnectionsCount cm' <= NormalConnectionsCount cm + N.of_nat (length l) /\
  (live cm ->
   forall NDEBUG' h' c,
     IsNormal h' c = true -> c ∉ connections_ cm' ->
     exists cm'',
       AddConnection NDEBUG' h' cm' c = Ok (cm'', true) /\
       NormalConnectionsCount cm'' = NormalConnectionsCount cm' + 1).
Proof.
  intros H. pose proof (AddConnection_all_size _ _ _ _ _ _ H) as [Hl Hs].
  split; [|split].
  - unfold NormalConnectionsCount. rewrite Hs. lia.
  - unfold NormalConnectionsCount. rewrite Hs.
    pose proof (filter_length_le (fun b : bool => b) rs) as Hf. lia.
  - intros Hlive NDEBUG' h' c Hn Hin.
    pose proof (AddConnection_all_live _ _ _ _ _ _ Hlive H) as Hlive'.
    destruct (live_invariant cm' Hlive') as [_ Hsorted].
    destruct (AddConnection_normal_absent NDEBUG' h' cm' c Hn Hsorted Hin)
      as (cm'' & Hadd & _).
    exists cm''. split; [exact Hadd|].
    apply AddConnection_size in Hadd. unfold NormalConnectionsCount. rewrite Hadd. lia.
Qed.

Lemma AddConnection_all_growth_witness :
  NormalConnectionsCount (set_connections (ConnectionManager_new 9 1) [1%positive; 2%positive])
    = 0 + N.of_nat (length (List.filter (fun b : bool => b) [true; true])) /\
  NormalConnectionsCount (set_connections (ConnectionManager_new 9 1) [1%positive; 2%positive])
    <= 0 + N.of_nat (length [1%positive; 2%positive]) /\
  exists cm'',
    AddConnection false heap_private_peer
      (set_connections (ConnectionManager_new 9 1) [1%positive; 2%positive]) 4 =
      Ok (cm'', true) /\
    NormalConnectionsCount cm'' =
      NormalConnectionsCount
        (set_connections (ConnectionManager_new 9 1) [1%positive; 2%positive]) + 1.
Proof.
  destruct (AddConnection_all_growth false heap_two_to_peer7 (ConnectionManager_new 9 1)
              [1%positive; 2%positive]
              (set_connections (ConnectionManager_new 9 1) [1%positive; 2%positive])
              [true; true]) as (H1 & H2 & H3); [vm_compute; reflexivity|].
  split; [exact H1|]. split; [exact H2|].
  apply (H3 (live_new 9 1) false heap_private_peer 4%positive).
  - vm_compute. reflexivity.
  - intros Hin. apply elem_of_cons in Hin as [Hin|Hin]; [discriminate|].
    apply list_elem_of_singleton in Hin. discriminate.
Defined.

(** C6: in a live manager the ids of the socket map are distinct, non-zero
    32-bit values.  [AddSocket] returns an id that is not zero and not in use,
    namely the first random value that is neither (the ones drawn before it
    are thrown away), and [find] of that id then gives the socket added; it
    returns as soon as one random value is usable.  [RemoveSocket] does
    nothing for id 0, removes the entry otherwise, and a second call with the
    same id changes nothing. *)
Theorem socket_registry_ids cm draws socket id0 :
  live cm ->
  SocketMap_wf (sockets_ cm) /\
  match AddSocket draws cm socket with
  | Some (cm', id, rest) =>
      id <> 0 /\ id <= uint32_max /\
      SocketMap_find id (sockets_ cm) = None /\
      SocketMap_find id (sockets_ cm') = Some socket /\
      (forall id', id' <> id ->
         SocketMap_find id' (sockets_ cm') = SocketMap_find id' (sockets_ cm)) /\
      (exists skipped r,
         draws = skipped ++ r :: rest /\
         Forall (fun x => usable (sockets_ cm) x = false) skipped /\
         id = N.land r uint32_max) /\
      live cm'
  | None => Forall (fun x => usable (sockets_ cm) x = false) draws
  end /\
  RemoveSocket cm 0 = cm /\
  RemoveSocket (RemoveSocket cm id0) id0 = RemoveSocket cm id0 /\
  (id0 <> 0 -> SocketMap_find id0 (sockets_ (RemoveSocket cm id0)) = None) /\
  (forall id', id' <> id0 ->
     SocketMap_find id' (sockets_ (RemoveSocket cm id0)) = SocketMap_find id' (sockets_ cm)) /\
  live (RemoveSocket cm id0).
Proof.
  intros Hlive. destruct (live_invariant cm Hlive) as [Hwf _].
  split; [exact Hwf|]. split.
  { destruct (AddSocket draws cm socket) as [[[cm' id] rest]|] eqn:Hadd.
    - pose proof (live_AddSocket _ _ _ _ _ _ Hlive Hadd) as Hlive'.
      unfold AddSocket in Hadd.
      destruct (AddSocket_loop draws (sockets_ cm) 0) as [[id' rest']|] eqn:E;
        [|discriminate].
      injection Hadd as <- <- <-. simpl.
      apply AddSocket_loop_Some in E as (Hz & Hf & Hcase).
      destruct Hcase as [[-> _]|(sk & r & Hd & Hsk & Hid)]; [congruence|].
      split; [assumption|]. split; [subst id'; apply land_uint32_max|].
      split; [assumption|]. split; [apply SocketMap_find_assign|].
      split; [intros id'' Hne; apply SocketMap_find_assign_other; congruence|].
      split; [eauto|exact Hlive'].
    - unfold AddSocket in Hadd.
      destruct (AddSocket_loop draws (sockets_ cm) 0) as [[id' rest']|] eqn:E;
        [discriminate|].
      eapply AddSocket_loop_None. exact E. }
  split; [reflexivity|].
  assert (Hfind : id0 <> 0 -> SocketMap_find id0 (sockets_ (RemoveSocket cm id0)) = None).
  { intros Hne. unfold RemoveSocket. apply N.eqb_neq in Hne. rewrite Hne. simpl.
    apply SocketMap_find_erase. apply Hwf. }
  split.
  { destruct (N.eq_dec id0 0) as [->|Hne]; [reflexivity|].
    specialize (Hfind Hne). apply SocketMap_find_None in Hfind.
    unfold RemoveSocket in *. apply N.eqb_neq in Hne. rewrite Hne in *.
    cbn [negb sockets_ set_sockets] in *.
    rewrite (SocketMap_erase_absent id0 (SocketMap_erase id0 (sockets_ cm)))
      by exact Hfind.
    reflexivity. }
  split; [exact Hfind|]. split.
  - intros id' Hne. unfold RemoveSocket. destruct (negb (id0 =? 0)); [|reflexivity].
    simpl. apply SocketMap_find_erase_other. congruence.
  - apply live_RemoveSocket. exact Hlive.
Qed.

Lemma socket_registry_ids_witness :
  live (ConnectionManager_new 9 1) /\
  match AddSocket [0; 4294967296; 77] (ConnectionManager_new 9 1) 5%positive with
  | Some (cm', id, rest) => id = 77 /\ SocketMap_find id (sockets_ cm') = Some 5%positive
  | None => False
  end /\
  SocketMap_find 77
    (sockets_ (RemoveSocket (set_sockets (ConnectionManager_new 9 1) [(77, 5%positive)]) 77))
    = None.
Proof.
  split; [apply live_new|]. split.
  - pose proof (socket_registry_ids (ConnectionManager_new 9 1) [0; 4294967296; 77]
                  5%positive 77 (live_new 9 1)) as H.
    destruct H as (_ & H & _). revert H. vm_compute. intros (_ & _ & _ & H & _).
    split; [reflexivity|exact H].
  - assert (Hl : live (set_sockets (ConnectionManager_new 9 1) [(77, 5%positive)])).
    { apply (live_AddSocket [77] (ConnectionManager_new 9 1) 5%positive _ 77 []).
      - apply live_new.
      - vm_compute. reflexivity. }
    pose proof (socket_registry_ids _ [] 5%positive 77 Hl) as H.
    destruct H as (_ & _ & _ & _ & H & _). apply H. discriminate.
Defined.
(** ** Handshake routing *)

Section DispatchProperties.

Variable IsValid : Endpoint -> bool.
Variable OnPrivateNetwork : Endpoint -> bool.
Variable bootstrap_connect_timeout : time_duration.
Variable bootstrap_connection_lifespan : time_duration.

Local Abbreviation GetSocket' :=
  (GetSocket IsValid OnPrivateNetwork bootstrap_connect_timeout bootstrap_connection_lifespan).
Local Abbreviation HandlePingFrom' :=
  (HandlePingFrom IsValid bootstrap_connect_timeout bootstrap_connection_lifespan).

Lemma find_elem_of {A} (f : A -> bool) (l : list A) x :
  List.find f l = Some x -> x ∈ l /\ f x = true.
Proof. intros H. apply find_some in H as [Hin Hf]. rewrite list_elem_of_In. auto. Qed.

Lemma find_None_elem_of {A} (f : A -> bool) (l : list A) :
  List.find f l = None <-> forall x, x ∈ l -> f x = false.
Proof.
  split.
  - intros H x Hx. apply (find_none f l H). apply list_elem_of_In. exact Hx.
  - intros H. induction l as [|y ys IH]; simpl; [reflexivity|].
    rewrite (H y) by left. apply IH. intros x Hx. apply H. right. exact Hx.
Qed.

Lemma no_exact_match h endpoint (m : SocketMap) :
  (forall sp, sp ∈ m -> PeerEndpoint h sp.2 <> Some endpoint) <->
  List.find (peer_endpoint_is h endpoint) m = None.
Proof.
  rewrite find_None_elem_of. unfold peer_endpoint_is. split.
  - intros H sp Hsp. apply bool_decide_eq_false_2. auto.
  - intros H sp Hsp. eapply bool_decide_eq_false_1. auto.
Qed.

(** C3: a handshake for socket id 0 with reason [kNormal], from a sender no
    registered socket has as its peer endpoint.  When [GetSocket] returns a
    socket, it is a registered one whose peer endpoint had the sender's
    address, was not on a private network and was not connected;
    [UpdatePeerEndpoint(sender)] was called on it, once, and nothing else was
    called.  When it returns no socket (the packet is dropped), nothing was
    called or changed and no registered socket qualified. *)
Theorem GetSocket_normal_handshake_revision h cm data endpoint handshake_packet :
  DecodeDestinationSocketId data = Some 0 ->
  Decode data = Some handshake_packet ->
  ConnectionReason handshake_packet = kNormal ->
  (forall sp, sp ∈ sockets_ cm -> PeerEndpoint h sp.2 <> Some endpoint) ->
  let '(h', events, result) := GetSocket' h cm data endpoint in
  match result with
  | Some s =>
      (exists id o,
         (id, s) ∈ sockets_ cm /\ h !! s = Some o /\
         address (peer_endpoint_ (socket_ o)) = address endpoint /\
         OnPrivateNetwork (peer_endpoint_ (socket_ o)) = false /\
         is_connected_ (socket_ o) = false) /\
      events = [Socket_UpdatePeerEndpoint s endpoint] /\
      h' = UpdatePeerEndpoint h s endpoint /\
      PeerEndpoint h' s = Some endpoint
  | None =>
      events = [] /\ h' = h /\
      forall sp o,
        sp ∈ sockets_ cm -> h !! sp.2 = Some o ->
        address (peer_endpoint_ (socket_ o)) = address endpoint ->
        OnPrivateNetwork (peer_endpoint_ (socket_ o)) = true \/
        is_connected_ (socket_ o) = true
  end.
Proof.
  intros Hid Hdec Hreason Hexact. apply no_exact_match in Hexact.
  unfold GetSocket. destruct (sockets_ cm) as [|p m] eqn:Hm.
  - split; [reflexivity|]. split; [reflexivity|]. intros sp o Hsp. inversion Hsp.
  - rewrite Hid, Hdec, Hreason. simpl "=?". cbn iota.
    rewrite bool_decide_eq_true_2 by reflexivity. rewrite Hexact.
    destruct (List.find (peer_address_revisable OnPrivateNetwork h endpoint) (p :: m))
      as [[id s]|] eqn:Hfind.
    + apply find_elem_of in Hfind as [Hin Hf]. unfold peer_address_revisable in Hf.
      simpl in Hf |- *. destruct (h !! s) as [o|] eqn:Ho; [|discriminate].
      apply andb_prop in Hf as [Hf Hc]. apply andb_prop in Hf as [Ha Hp].
      apply bool_decide_eq_true in Ha. apply negb_true_iff in Hp, Hc.
      split; [exists id, o; auto|]. split; [reflexivity|]. split; [reflexivity|].
      unfold PeerEndpoint, UpdatePeerEndpoint. rewrite lookup_alter_eq, Ho. reflexivity.
    + split; [reflexivity|]. split; [reflexivity|].
      intros sp o Hsp Ho Ha. rewrite find_None_elem_of in Hfind.
      specialize (Hfind sp Hsp). unfold peer_address_revisable in Hfind.
      rewrite Ho in Hfind. rewrite bool_decide_eq_true_2 in Hfind by assumption.
      simpl in Hfind. destruct (OnPrivateNetwork _); [auto|].
      destruct (is_connected_ _); [auto|discriminate].
Qed.

Lemma FindConnection_Some h cm peer_id c :
  FindConnection h cm peer_id = Some c ->
  c ∈ connections_ cm /\ PeerNodeId h c = Some peer_id.
Proof.
  unfold FindConnection. intros H. apply find_elem_of in H as [Hin Hf].
  apply bool_decide_eq_true in Hf. auto.
Qed.

Lemma FindConnection_None h cm peer_id :
  FindConnection h cm peer_id = None <->
  forall c, c ∈ connections_ cm -> PeerNodeId h c <> Some peer_id.
Proof.
  unfold FindConnection. rewrite find_None_elem_of. split.
  - intros H c Hc. eapply bool_decide_eq_false_1. auto.
  - intros H c Hc. apply bool_decide_eq_false_2. auto.
Qed.

(** C4 (as amended): a handshake for socket id 0 with a reason other than
    [kNormal].  While no socket is registered, [GetSocket] returns no socket
    at once: [HandlePingFrom] is not run, nothing is called and nothing
    changes.  While at least one socket is registered: if no registered socket
    has the sender as its peer endpoint, [HandlePingFrom] is run and no socket
    is returned; if one has, that socket is returned and nothing else
    happens. *)
Theorem GetSocket_other_handshake h cm data endpoint handshake_packet :
  DecodeDestinationSocketId data = Some 0 ->
  Decode data = Some handshake_packet ->
  ConnectionReason handshake_packet <> kNormal ->
  (sockets_ cm = [] -> GetSocket' h cm data endpoint = (h, [], None)) /\
  (sockets_ cm <> [] ->
   ((forall sp, sp ∈ sockets_ cm -> PeerEndpoint h sp.2 <> Some endpoint) ->
    GetSocket' h cm data endpoint =
      ((HandlePingFrom' h cm handshake_packet endpoint).1,
       (HandlePingFrom' h cm handshake_packet endpoint).2, None)) /\
   ((exists sp, sp ∈ sockets_ cm /\ PeerEndpoint h sp.2 = Some endpoint) ->
    exists sp, sp ∈ sockets_ cm /\ PeerEndpoint h sp.2 = Some endpoint /\
      GetSocket' h cm data endpoint = (h, [], Some sp.2))).
Proof.
  intros Hid Hdec Hreason. unfold GetSocket. split.
  { intros ->. reflexivity. }
  intros Hne.
  destruct (sockets_ cm) as [|p m] eqn:Hm; [congruence|].
  rewrite Hid, Hdec. simpl "=?". cbn iota.
  rewrite bool_decide_eq_false_2 by assumption. split.
  - intros Hexact. apply no_exact_match in Hexact. rewrite Hexact.
    destruct (HandlePingFrom' h cm handshake_packet endpoint) as [h' events]. reflexivity.
  - intros (sp & Hsp & Hpe).
    destruct (List.find (peer_endpoint_is h endpoint) (p :: m)) as [sp'|] eqn:Hfind.
    + apply find_elem_of in Hfind as [Hin Hf]. unfold peer_endpoint_is in Hf.
      apply bool_decide_eq_true in Hf. exists sp'. auto.
    + rewrite find_None_elem_of in Hfind. specialize (Hfind sp Hsp).
      unfold peer_endpoint_is in Hfind. apply bool_decide_eq_false in Hfind. contradiction.
Qed.

(** C5: [HandlePingFrom] does nothing for a handshake that carries this
    node's own id.  Otherwise, for a valid sender endpoint: when the set has a
    connection to the node of the handshake and the reason is not
    [kBootstrapAndDrop], such a connection (the first in the set) is closed and
    nothing else is called; in the other cases [Connect] is run for that node
    and the sender, with empty validation data, the bootstrap connect timeout
    and a lifespan of zero for [kBootstrapAndDrop] and of the bootstrap
    connection lifespan otherwise, which, the transport being there, starts
    one new connection. *)
Theorem HandlePingFrom_policy h cm handshake_packet endpoint :
  (node_id handshake_packet = kThisNodeId_ cm ->
   HandlePingFrom' h cm handshake_packet endpoint = (h, [])) /\
  (node_id handshake_packet <> kThisNodeId_ cm -> IsValid endpoint = true ->
   ((exists c, c ∈ connections_ cm /\ PeerNodeId h c = Some (node_id handshake_packet)) ->
    ConnectionReason handshake_packet <> kBootstrapAndDrop ->
    exists c, c ∈ connections_ cm /\ PeerNodeId h c = Some (node_id handshake_packet) /\
      HandlePingFrom' h cm handshake_packet endpoint = (h, [Connection_Close c])) /\
   (((forall c, c ∈ connections_ cm -> PeerNodeId h c <> Some (node_id handshake_packet)) \/
     ConnectionReason handshake_packet = kBootstrapAndDrop) ->
    let lifespan :=
      if bool_decide (ConnectionReason handshake_packet = kBootstrapAndDrop)
      then milliseconds 0 else bootstrap_connection_lifespan in
    HandlePingFrom' h cm handshake_packet endpoint =
      Connect h cm (node_id handshake_packet) endpoint ""
              bootstrap_connect_timeout lifespan None /\
    (forall transport, transport_ cm = Some transport ->
       h !! fresh (dom h) = None /\
       HandlePingFrom' h cm handshake_packet endpoint =
         (<[fresh (dom h) := Connection_new]> h,
          [Connection_StartConnecting (fresh (dom h)) (node_id handshake_packet) endpoint ""
             bootstrap_connect_timeout lifespan None])))).
Proof.
  unfold HandlePingFrom. split.
  - intros ->. rewrite bool_decide_eq_true_2 by reflexivity. reflexivity.
  - intros Hne Hvalid. rewrite bool_decide_eq_false_2 by assumption. rewrite Hvalid.
    split.
    + intros (c & Hc & Hp) Hr. rewrite (bool_decide_eq_false_2 _ Hr). simpl.
      destruct (FindConnection h cm (node_id handshake_packet)) as [c'|] eqn:Hfind.
      * apply FindConnection_Some in Hfind as [Hin Hpeer]. exists c'. auto.
      * rewrite FindConnection_None in Hfind. exfalso. exact (Hfind c Hc Hp).
    + intros Hcase.
      set (lifespan := if bool_decide (ConnectionReason handshake_packet = kBootstrapAndDrop)
                       then milliseconds 0 else bootstrap_connection_lifespan).
      assert (Hrun :
        match
          match FindConnection h cm (node_id handshake_packet) with
          | Some connection =>
              if negb (bool_decide (ConnectionReason handshake_packet = kBootstrapAndDrop))
              then Some connection else None
          | None => None
          end
        with
        | Some connection => (h, [Connection_Close connection])
        | None =>
            Connect h cm (node_id handshake_packet) endpoint ""
              bootstrap_connect_timeout
              (if bool_decide (ConnectionReason handshake_packet = kBootstrapAndDrop)
               then time_duration_default else bootstrap_connection_lifespan) None
        end =
        Connect h cm (node_id handshake_packet) endpoint ""
          bootstrap_connect_timeout lifespan None).
      { subst lifespan. destruct Hcase as [Hnone|Hr].
        - apply FindConnection_None in Hnone. rewrite Hnone. reflexivity.
        - rewrite (bool_decide_eq_true_2 _ Hr). simpl.
          destruct (FindConnection h cm (node_id handshake_packet)); reflexivity. }
      split; [exact Hrun|]. intros transport Ht. split.
      * apply not_elem_of_dom. apply is_fresh.
      * rewrite Hrun. unfold Connect, make_shared. rewrite Ht. reflexivity.
Qed.

(** C10: once the transport is gone ([transport_.lock()] gives nothing),
    [Ping] creates no connection, changes nothing and calls nothing, the
    functor included; so does [Connect]. *)
Theorem Ping_Connect_without_transport NDEBUG h cm peer_id peer_endpoint ping_functor
    validation_data connect_attempt_timeout lifespan failure_functor :
  transport_ cm = None ->
  Ping NDEBUG h cm peer_id peer_endpoint ping_functor = Ok (h, []) /\
  Connect h cm peer_id peer_endpoint validation_data connect_attempt_timeout lifespan
          failure_functor = (h, []).
Proof. intros Ht. unfold Ping, Connect. rewrite Ht. split; reflexivity. Qed.

(** With the transport there, both create a connection object at a new
    address and start it. *)
Lemma Ping_Connect_with_transport NDEBUG h cm transport peer_id peer_endpoint f
    validation_data connect_attempt_timeout lifespan failure_functor :
  transport_ cm = Some transport ->
  Ping NDEBUG h cm peer_id peer_endpoint (Some f) =
    Ok (<[fresh (dom h) := Connection_new]> h,
        [Connection_Ping (fresh (dom h)) peer_id peer_endpoint (Some f)]) /\
  Connect h cm peer_id peer_endpoint validation_data connect_attempt_timeout lifespan
          failure_functor =
    (<[fresh (dom h) := Connection_new]> h,
     [Connection_StartConnecting (fresh (dom h)) peer_id peer_endpoint validation_data
        connect_attempt_timeout lifespan failure_functor]).
Proof.
  intros Ht. unfold Ping, Connect, make_shared, assert. rewrite Ht.
  rewrite bool_decide_eq_true_2 by eauto. rewrite orb_true_r. split; reflexivity.
Qed.

End DispatchProperties.

Lemma GetSocket_normal_handshake_revision_witness :
  let '(h', events, result) :=
    GetSocket IsValid_model OnPrivateNetwork_model scenario_bootstrap_connect_timeout
      scenario_bootstrap_connection_lifespan heap_waiting manager_waiting
      (handshake_from 7 kNormal) ep_public_40123 in
  match result with
  | Some s =>
      events = [Socket_UpdatePeerEndpoint s ep_public_40123] /\
      PeerEndpoint h' s = Some ep_public_40123
  | None => events = []
  end.
Proof.
  pose proof (GetSocket_normal_handshake_revision IsValid_model OnPrivateNetwork_model
                scenario_bootstrap_connect_timeout scenario_bootstrap_connection_lifespan
                heap_waiting manager_waiting (handshake_from 7 kNormal) ep_public_40123
                (mkHandshakePacket 7 kNormal) eq_refl eq_refl eq_refl) as T.
  assert (Hexact : forall sp, sp ∈ sockets_ manager_waiting ->
                     PeerEndpoint heap_waiting sp.2 <> Some ep_public_40123).
  { apply no_exact_match. vm_compute. reflexivity. }
  specialize (T Hexact).
  destruct (GetSocket _ _ _ _ _ _ _ _) as [[h' events] [s|]].
  - destruct T as (_ & T1 & _ & T2). split; assumption.
  - destruct T as (T & _). exact T.
Defined.

Lemma GetSocket_other_handshake_witness :
  GetSocket IsValid_model OnPrivateNetwork_model scenario_bootstrap_connect_timeout
    scenario_bootstrap_connection_lifespan heap_waiting (ConnectionManager_new 9 1)
    (handshake_from 8 kPing) ep_public_40123 = (heap_waiting, [], None) /\
  GetSocket IsValid_model OnPrivateNetwork_model scenario_bootstrap_connect_timeout
    scenario_bootstrap_connection_lifespan heap_waiting manager_waiting
    (handshake_from 8 kPing) ep_public_40123 =
  ((HandlePingFrom IsValid_model scenario_bootstrap_connect_timeout
      scenario_bootstrap_connection_lifespan heap_waiting manager_waiting
      (mkHandshakePacket 8 kPing) ep_public_40123).1,
   (HandlePingFrom IsValid_model scenario_bootstrap_connect_timeout
      scenario_bootstrap_connection_lifespan heap_waiting manager_waiting
      (mkHandshakePacket 8 kPing) ep_public_40123).2, None) /\
  exists sp, sp ∈ sockets_ manager_waiting /\
    PeerEndpoint heap_waiting sp.2 = Some ep_public_40000 /\
    GetSocket IsValid_model OnPrivateNetwork_model scenario_bootstrap_connect_timeout
      scenario_bootstrap_connection_lifespan heap_waiting manager_waiting
      (handshake_from 8 kPing) ep_public_40000 = (heap_waiting, [], Some sp.2).
Proof.
  split; [|split].
  - destruct (GetSocket_other_handshake IsValid_model OnPrivateNetwork_model
                scenario_bootstrap_connect_timeout scenario_bootstrap_connection_lifespan
                heap_waiting (ConnectionManager_new 9 1) (handshake_from 8 kPing)
                ep_public_40123 (mkHandshakePacket 8 kPing)) as [H _];
      [reflexivity|reflexivity|discriminate|].
    apply H. reflexivity.
  - destruct (GetSocket_other_handshake IsValid_model OnPrivateNetwork_model
                scenario_bootstrap_connect_timeout scenario_bootstrap_connection_lifespan
                heap_waiting manager_waiting (handshake_from 8 kPing) ep_public_40123
                (mkHandshakePacket 8 kPing)) as [_ H];
      [reflexivity|reflexivity|discriminate|].
    destruct H as [H _]; [discriminate|]. apply H.
    apply no_exact_match. vm_compute. reflexivity.
  - destruct (GetSocket_other_handshake IsValid_model OnPrivateNetwork_model
                scenario_bootstrap_connect_timeout scenario_bootstrap_connection_lifespan
                heap_waiting manager_waiting (handshake_from 8 kPing) ep_public_40000
                (mkHandshakePacket 8 kPing)) as [_ H];
      [reflexivity|reflexivity|discriminate|].
    destruct H as [_ H]; [discriminate|]. apply H.
    exists (12, 3%positive). split; [left|vm_compute; reflexivity].
Defined.

(** C4, the claim as stated fails: with no socket registered, a ping
    handshake from a valid endpoint matches no socket's peer endpoint, yet
    [GetSocket] returns at once and [HandlePingFrom], which would have started
    a connection, is not run. *)
Lemma GetSocket_empty_registry_no_HandlePingFrom :
  (forall sp, sp ∈ sockets_ (ConnectionManager_new 9 1) ->
     PeerEndpoint ∅ sp.2 <> Some ep_public_40123) /\
  GetSocket IsValid_model OnPrivateNetwork_model scenario_bootstrap_connect_timeout
    scenario_bootstrap_connection_lifespan ∅ (ConnectionManager_new 9 1)
    (handshake_from 7 kPing) ep_public_40123 = (∅, [], None) /\
  HandlePingFrom IsValid_model scenario_bootstrap_connect_timeout
    scenario_bootstrap_connection_lifespan ∅ (ConnectionManager_new 9 1)
    (mkHandshakePacket 7 kPing) ep_public_40123 =
  (<[1%positive := Connection_new]> ∅,
   [Connection_StartConnecting 1 7 ep_public_40123 "" scenario_bootstrap_connect_timeout
      scenario_bootstrap_connection_lifespan None]) /\
  GetSocket IsValid_model OnPrivateNetwork_model scenario_bootstrap_connect_timeout
    scenario_bootstrap_connection_lifespan ∅ (ConnectionManager_new 9 1)
    (handshake_from 7 kPing) ep_public_40123 <>
  ((HandlePingFrom IsValid_model scenario_bootstrap_connect_timeout
      scenario_bootstrap_connection_lifespan ∅ (ConnectionManager_new 9 1)
      (mkHandshakePacket 7 kPing) ep_public_40123).1,
   (HandlePingFrom IsValid_model scenario_bootstrap_connect_timeout
      scenario_bootstrap_connection_lifespan ∅ (ConnectionManager_new 9 1)
      (mkHandshakePacket 7 kPing) ep_public_40123).2, None).
Proof.
  split; [intros sp Hsp; inversion Hsp|].
  split; [reflexivity|]. split; [vm_compute; reflexivity|].
  vm_compute. intros H. discriminate H.
Qed.

Lemma HandlePingFrom_policy_witness :
  let cm := set_connections (ConnectionManager_new 9 1) [1%positive; 2%positive] in
  HandlePingFrom IsValid_model scenario_bootstrap_connect_timeout
    scenario_bootstrap_connection_lifespan heap_two_to_peer7 cm
    (mkHandshakePacket 1 kPing) ep_public_40123 = (heap_two_to_peer7, []) /\
  (exists c, c ∈ connections_ cm /\ PeerNodeId heap_two_to_peer7 c = Some 7 /\
     HandlePingFrom IsValid_model scenario_bootstrap_connect_timeout
       scenario_bootstrap_connection_lifespan heap_two_to_peer7 cm
       (mkHandshakePacket 7 kPing) ep_public_40123 =
     (heap_two_to_peer7, [Connection_Close c])) /\
  HandlePingFrom IsValid_model scenario_bootstrap_connect_timeout
    scenario_bootstrap_connection_lifespan heap_two_to_peer7 cm
    (mkHandshakePacket 7 kBootstrapAndDrop) ep_public_40123 =
  Connect heap_two_to_peer7 cm 7 ep_public_40123 ""
    scenario_bootstrap_connect_timeout (milliseconds 0) None.
Proof.
  intros cm. split; [|split].
  - apply (HandlePingFrom_policy IsValid_model scenario_bootstrap_connect_timeout
             scenario_bootstrap_connection_lifespan heap_two_to_peer7 cm
             (mkHandshakePacket 1 kPing) ep_public_40123). reflexivity.
  - apply (HandlePingFrom_policy IsValid_model scenario_bootstrap_connect_timeout
             scenario_bootstrap_connection_lifespan heap_two_to_peer7 cm
             (mkHandshakePacket 7 kPing) ep_public_40123);
      [discriminate|reflexivity| |discriminate].
    exists 2%positive. split; [right; left|vm_compute; reflexivity].
  - apply (HandlePingFrom_policy IsValid_model scenario_bootstrap_connect_timeout
             scenario_bootstrap_connection_lifespan heap_two_to_peer7 cm
             (mkHandshakePacket 7 kBootstrapAndDrop) ep_public_40123);
      [discriminate|reflexivity|right; reflexivity].
Defined.

Lemma Ping_Connect_without_transport_witness :
  let cm := mkConnectionManager [1%positive] None 1 [(12, 3%positive)] in
  transport_ cm = None /\
  Ping false heap_two_to_peer7 cm 7 ep_public_40000 (Some 4) = Ok (heap_two_to_peer7, []) /\
  Connect heap_two_to_peer7 cm 7 ep_public_40000 "" scenario_bootstrap_connect_timeout
    scenario_bootstrap_connection_lifespan None = (heap_two_to_peer7, []).
Proof.
  intros cm. split; [reflexivity|].
  apply (Ping_Connect_without_transport false heap_two_to_peer7 cm). reflexivity.
Defined.

(** ** Rendezvous connect and bootstrap *)

Section TransportProperties.

Import Transport.

Variable NDEBUG : bool.
Variable IsValid : Endpoint -> bool.
Variable bootstrap_connect_timeout : time_duration.
Variable bootstrap_connection_lifespan : time_duration.
Variable rendezvous_connect_timeout : time_duration.

Local Abbreviation DoConnect' := (DoConnect IsValid rendezvous_connect_timeout).
Local Abbreviation OnConnect_run' := (OnConnect_run rendezvous_connect_timeout).

(** C7 (as amended): with the multiplexer closed, [DoConnect] calls the
    handler with [failed_to_connect] and starts nothing.  With a valid
    external endpoint it starts one connect to it, with the rendezvous
    timeout; when the local endpoint differs, the closure given to that
    connect, run on the outcome of the attempt whatever it is, starts the
    connect to the local endpoint if the multiplexer is open at that moment,
    and otherwise behaves as the plain closure (default handling, then the
    handler).  With an invalid external endpoint only the connect to the local
    endpoint is started. *)
Theorem DoConnect_rendezvous IsOpen peer_id peer_endpoint_pair peer_public_key handler :
  (IsOpen = false ->
   DoConnect' IsOpen peer_id peer_endpoint_pair peer_public_key handler =
     [handler_call handler (Some failed_to_connect)]) /\
  (IsOpen = true -> IsValid (external peer_endpoint_pair) = true ->
   exists f,
     DoConnect' IsOpen peer_id peer_endpoint_pair peer_public_key handler =
       [ConnectionManager_Connect peer_id (external peer_endpoint_pair) peer_public_key
          rendezvous_connect_timeout pos_infin (rendezvous_closure f)] /\
     (local peer_endpoint_pair = external peer_endpoint_pair -> f = on_connect handler) /\
     (local peer_endpoint_pair <> external peer_endpoint_pair ->
      forall self error c,
        OnConnect_run' true self f error c =
          [ConnectionManager_Connect peer_id (local peer_endpoint_pair) peer_public_key
             rendezvous_connect_timeout pos_infin (rendezvous_closure (on_connect handler))] /\
        OnConnect_run' false self f error c =
          default_on_connect self error c ++ [handler_call handler error])) /\
  (IsOpen = true -> IsValid (external peer_endpoint_pair) = false ->
   DoConnect' IsOpen peer_id peer_endpoint_pair peer_public_key handler =
     [ConnectionManager_Connect peer_id (local peer_endpoint_pair) peer_public_key
        rendezvous_connect_timeout pos_infin (rendezvous_closure (on_connect handler))]).
Proof.
  unfold DoConnect. split; [|split].
  - intros ->. reflexivity.
  - intros -> Hv. rewrite Hv. simpl. eexists. split; [reflexivity|]. split.
    + intros Heq. rewrite (bool_decide_eq_true_2 _ Heq). reflexivity.
    + intros Hne self error c. rewrite (bool_decide_eq_false_2 _ Hne). simpl. auto.
  - intros -> Hv. rewrite Hv. reflexivity.
Qed.

End TransportProperties.

Lemma DoConnect_rendezvous_witness :
  Transport.DoConnect IsValid_model scenario_rendezvous_connect_timeout false 7
    Transport.pair_behind_nat "key" 0 =
    [Transport.handler_call 0 (Some Transport.failed_to_connect)] /\
  (exists f,
     Transport.DoConnect IsValid_model scenario_rendezvous_connect_timeout true 7
       Transport.pair_behind_nat "key" 0 =
       [Transport.ConnectionManager_Connect 7 ep_public_40000 "key"
          scenario_rendezvous_connect_timeout pos_infin (Transport.rendezvous_closure f)] /\
     Transport.OnConnect_run scenario_rendezvous_connect_timeout true true f
       (Some Transport.timed_out) 1 =
       [Transport.ConnectionManager_Connect 7 ep_private "key"
          scenario_rendezvous_connect_timeout pos_infin
          (Transport.rendezvous_closure (Transport.on_connect 0))]) /\
  Transport.DoConnect IsValid_model scenario_rendezvous_connect_timeout true 7
    (Transport.mkEndpointPair ep_private Endpoint_default) "key" 0 =
    [Transport.ConnectionManager_Connect 7 ep_private "key"
       scenario_rendezvous_connect_timeout pos_infin
       (Transport.rendezvous_closure (Transport.on_connect 0))].
Proof.
  split; [|split].
  - apply (DoConnect_rendezvous IsValid_model scenario_rendezvous_connect_timeout false 7
             Transport.pair_behind_nat "key" 0). reflexivity.
  - destruct (DoConnect_rendezvous IsValid_model scenario_rendezvous_connect_timeout true 7
                Transport.pair_behind_nat "key" 0) as (_ & H & _).
    destruct (H eq_refl eq_refl) as (f & Hf & _ & Hrun). exists f. split; [exact Hf|].
    apply Hrun. discriminate.
  - apply (DoConnect_rendezvous IsValid_model scenario_rendezvous_connect_timeout true 7
             (Transport.mkEndpointPair ep_private Endpoint_default) "key" 0); reflexivity.
Defined.

(** C7, the claim as stated fails: the external and local endpoints differ
    and the external attempt times out after the multiplexer was closed; the
    closure run on that outcome starts no connect to the local endpoint, it
    only reports the error to the handler. *)
Lemma DoConnect_no_local_connect_once_closed :
  Transport.local Transport.pair_behind_nat <> Transport.external Transport.pair_behind_nat /\
  Transport.DoConnect IsValid_model scenario_rendezvous_connect_timeout true 7
    Transport.pair_behind_nat "key" 0 =
    [Transport.ConnectionManager_Connect 7 ep_public_40000 "key"
       scenario_rendezvous_connect_timeout pos_infin
       (Transport.rendezvous_closure (Transport.on_connect2 7 ep_private "key" 0))] /\
  Transport.OnConnect_run scenario_rendezvous_connect_timeout false true
    (Transport.on_connect2 7 ep_private "key" 0) (Some Transport.timed_out) 1 =
    [Transport.handler_call 0 (Some Transport.timed_out)] /\
  Transport.OnConnect_run scenario_rendezvous_connect_timeout false true
    (Transport.on_connect2 7 ep_private "key" 0) None 1 =
    [Transport.Transport_AddConnection 1; Transport.handler_call 0 None].
Proof.
  split; [discriminate|]. split; [vm_compute; reflexivity|].
  split; reflexivity.
Qed.

Section BootstrapProperties.

Import Transport.

Variable NDEBUG : bool.
Variable IsValid : Endpoint -> bool.
Variable bootstrap_connect_timeout : time_duration.
Variable bootstrap_connection_lifespan : time_duration.
Variable connect_result : Contact -> ConnectResult.
Variable RemoteNatDetectionEndpoint : NodeId -> Endpoint.
Variable ping_result : NodeId -> Endpoint -> ReturnCode.

Local Abbreviation DetectNatType' := (DetectNatType IsValid RemoteNatDetectionEndpoint ping_result).
Local Abbreviation attempt := (ConnectToBootstrapEndpoint1 IsValid bootstrap_connect_timeout
                             connect_result RemoteNatDetectionEndpoint ping_result).
Local Abbreviation iterate := (ConnectToBootstrapEndpoint IsValid bootstrap_connect_timeout
                             connect_result RemoteNatDetectionEndpoint ping_result).
Local Abbreviation yield := (attempt_yield IsValid connect_result).
Local Abbreviation calls := (attempt_calls IsValid bootstrap_connect_timeout connect_result
                           RemoteNatDetectionEndpoint ping_result).
Local Abbreviation TryBootstrapping' :=
  (TryBootstrapping NDEBUG IsValid bootstrap_connect_timeout bootstrap_connection_lifespan
     connect_result RemoteNatDetectionEndpoint ping_result).

Local Abbreviation fails := (attempt_fails IsValid connect_result).

Lemma DetectNatType_handler peer_id peer_public_key handler :
  DetectNatType' peer_id peer_public_key handler =
  DetectNatType' peer_id peer_public_key [] ++ handler.
Proof.
  unfold DetectNatType. destruct (negb (IsValid _)); [reflexivity|].
  destruct (ping_result _ _); reflexivity.
Qed.

Lemma attempt_split self contact lifespan handler :
  attempt self contact lifespan handler =
  calls self lifespan contact ++ handler (yield contact).
Proof.
  unfold ConnectToBootstrapEndpoint1, attempt_calls, attempt_yield.
  destruct (negb (IsValid _)); [reflexivity|].
  destruct (connect_result contact) as [e|connection peer_id peer_public_key];
    [reflexivity|].
  rewrite DetectNatType_handler. simpl. rewrite <- app_assoc. reflexivity.
Qed.

Lemma iterate_exhausted self lifespan handler range :
  Forall fails range ->
  iterate self range lifespan handler =
  flat_map (calls self lifespan) range ++ handler NodeId_default.
Proof.
  induction 1 as [|contact next Hfail _ IH]; simpl; [reflexivity|].
  rewrite attempt_split. unfold attempt_fails in Hfail. rewrite Hfail. simpl.
  rewrite IH, app_assoc. reflexivity.
Qed.

Lemma iterate_first_success self lifespan handler failed contact next :
  Forall fails failed -> NodeId_IsValid (yield contact) = true ->
  iterate self (failed ++ contact :: next) lifespan handler =
  flat_map (calls self lifespan) failed ++ calls self lifespan contact ++
  handler (yield contact).
Proof.
  intros Hfailed Hok. induction Hfailed as [|c rest Hfail _ IH]; simpl.
  - rewrite attempt_split, Hok. reflexivity.
  - rewrite attempt_split. unfold attempt_fails in Hfail. rewrite Hfail. simpl.
    rewrite IH, <- app_assoc. reflexivity.
Qed.

Lemma calls_no_on_bootstrap_call self lifespan contact :
  List.filter is_on_bootstrap_call (calls self lifespan contact) = [].
Proof.
  unfold attempt_calls, DetectNatType, default_on_connect.
  destruct (negb (IsValid (external _))); [reflexivity|].
  destruct (connect_result contact); [reflexivity|].
  destruct self; simpl; destruct (negb (IsValid _)); simpl; try reflexivity;
    destruct (ping_result _ _); reflexivity.
Qed.

Lemma flat_map_calls_no_on_bootstrap_call self lifespan l :
  List.filter is_on_bootstrap_call (flat_map (calls self lifespan) l) = [].
Proof.
  induction l as [|c l IH]; simpl; [reflexivity|].
  rewrite List.filter_app, calls_no_on_bootstrap_call, IH. reflexivity.
Qed.

(** The run of a bootstrap that makes outgoing attempts and passes the
    debug assertion on the candidates' endpoints. *)
Lemma TryBootstrapping_attempts self nat_type_ local_endpoint bootstrap_list
    bootstrap_off_existing_connection :
  (bootstrap_off_existing_connection = true -> nat_type_ <> kSymmetric) ->
  NDEBUG = true \/
    Forall (fun peer => local_endpoint <> local (endpoint_pair peer) /\
                        local_endpoint <> external (endpoint_pair peer)) bootstrap_list ->
  let lifespan :=
    if bootstrap_off_existing_connection then milliseconds 0
    else bootstrap_connection_lifespan in
  let run := TryBootstrapping' self nat_type_ local_endpoint bootstrap_list
               bootstrap_off_existing_connection in
  (Forall fails bootstrap_list ->
   run = flat_map (calls self lifespan) bootstrap_list ++
         [on_bootstrap_call kNotConnectable Contact_default] /\
   List.filter is_on_bootstrap_call run =
     [on_bootstrap_call kNotConnectable Contact_default]) /\
  (forall failed contact next,
     bootstrap_list = failed ++ contact :: next ->
     Forall fails failed -> NodeId_IsValid (yield contact) = true ->
     run = flat_map (calls self lifespan) failed ++ calls self lifespan contact ++
           on_bootstrap NDEBUG bootstrap_list (yield contact) /\
     (forall reported,
        List.find (fun x => bool_decide (id x = yield contact)) bootstrap_list
          = Some reported ->
        run = flat_map (calls self lifespan) failed ++ calls self lifespan contact ++
              [on_bootstrap_call kSuccess reported] /\
        List.filter is_on_bootstrap_call run = [on_bootstrap_call kSuccess reported]) /\
     (id contact = yield contact -> Forall (fun x => id x <> yield contact) failed ->
      run = flat_map (calls self lifespan) failed ++ calls self lifespan contact ++
            [on_bootstrap_call kSuccess contact])).
Proof.
  intros Htry Hassert lifespan run.
  assert (Hrun : run = iterate self bootstrap_list lifespan (on_bootstrap NDEBUG bootstrap_list)).
  { subst run lifespan. unfold TryBootstrapping.
    assert (Ht : (if bootstrap_off_existing_connection
                  then negb (bool_decide (nat_type_ = kSymmetric)) else true) = true).
    { destruct bootstrap_off_existing_connection; [|reflexivity].
      rewrite bool_decide_eq_false_2 by auto. reflexivity. }
    rewrite Ht. simpl.
    assert (Ha : NDEBUG ||
                 forallb (fun peer =>
                            negb (bool_decide (local_endpoint = local (endpoint_pair peer))) &&
                            negb (bool_decide (local_endpoint = external (endpoint_pair peer))))
                         bootstrap_list = true).
    { destruct Hassert as [->|Hall]; [reflexivity|]. apply orb_true_iff. right.
      apply forallb_forall. intros peer Hin. rewrite Forall_forall in Hall.
      apply list_elem_of_In in Hin. destruct (Hall peer Hin) as [H1 H2].
      rewrite !bool_decide_eq_false_2 by assumption. reflexivity. }
    rewrite Ha. destruct bootstrap_off_existing_connection; reflexivity. }
  split.
  - intros Hall. rewrite Hrun, (iterate_exhausted _ _ _ _ Hall).
    unfold on_bootstrap. simpl. split; [reflexivity|].
    rewrite List.filter_app, flat_map_calls_no_on_bootstrap_call. reflexivity.
  - intros failed contact next Hlist Hfailed Hok.
    assert (Hseq : run = flat_map (calls self lifespan) failed ++
                         calls self lifespan contact ++
                         on_bootstrap NDEBUG bootstrap_list (yield contact)).
    { rewrite Hrun. rewrite Hlist at 1.
      apply iterate_first_success; assumption. }
    split; [exact Hseq|]. split.
    + intros reported Hfind. rewrite Hseq. unfold on_bootstrap. rewrite Hok, Hfind.
      split; [reflexivity|].
      rewrite !List.filter_app, flat_map_calls_no_on_bootstrap_call,
        calls_no_on_bootstrap_call. reflexivity.
    + intros Hid Hnot. rewrite Hseq. unfold on_bootstrap. rewrite Hok.
      replace (List.find (fun x => bool_decide (id x = yield contact)) bootstrap_list)
        with (Some contact); [reflexivity|].
      rewrite Hlist. clear -Hid Hnot. induction Hnot as [|c rest Hc _ IH]; simpl.
      * rewrite bool_decide_eq_true_2 by assumption. reflexivity.
      * rewrite bool_decide_eq_false_2 by assumption. exact IH.
Qed.


(** C8 (as amended): a bootstrap off an existing connection behind a
    symmetric NAT tries no candidate and calls the completion callback with
    [kSuccess] and a null contact at once.  Otherwise a debug build first
    asserts that no candidate names our own local endpoint and stops there,
    before any attempt, if one does.  Past that, the candidates are tried in
    list order, the next one only after the one before yielded no valid peer
    id.  If none yields one, the calls of all the attempts are followed by the
    completion callback, called once, with [kNotConnectable] and a null
    contact.  The first candidate that yields a valid peer id ends the
    iteration (those after it are not tried); the callback is then called with
    [kSuccess] and the first contact of the list that carries this peer id,
    which is the candidate itself when it carries the id and no candidate
    before it does; when no contact of the list carries the id, a debug build
    stops at the assertion and a release build reads through the end
    iterator. *)
Theorem TryBootstrapping_in_list_order (self : bool) (nat_type_ : NatType)
    (local_endpoint : Endpoint) (bootstrap_list : list Contact)
    (bootstrap_off_existing_connection : bool) :
  let lifespan :=
    if bootstrap_off_existing_connection then milliseconds 0
    else bootstrap_connection_lifespan in
  let run := TryBootstrapping' self nat_type_ local_endpoint bootstrap_list
               bootstrap_off_existing_connection in
  let asserted :=
    NDEBUG = true \/
    Forall (fun peer => local_endpoint <> local (endpoint_pair peer) /\
                        local_endpoint <> external (endpoint_pair peer)) bootstrap_list in
  (bootstrap_off_existing_connection = true -> nat_type_ = kSymmetric ->
   run = [on_bootstrap_call kSuccess Contact_default]) /\
  ((bootstrap_off_existing_connection = true -> nat_type_ <> kSymmetric) ->
   ~ asserted -> run = [assertion_failure]) /\
  ((bootstrap_off_existing_connection = true -> nat_type_ <> kSymmetric) ->
   asserted ->
   (Forall fails bootstrap_list ->
    run = flat_map (calls self lifespan) bootstrap_list ++
          [on_bootstrap_call kNotConnectable Contact_default] /\
    List.filter is_on_bootstrap_call run =
      [on_bootstrap_call kNotConnectable Contact_default]) /\
   (forall failed contact next,
      bootstrap_list = failed ++ contact :: next ->
      Forall fails failed -> NodeId_IsValid (yield contact) = true ->
      run = flat_map (calls self lifespan) failed ++ calls self lifespan contact ++
            on_bootstrap NDEBUG bootstrap_list (yield contact) /\
      (forall reported,
         List.find (fun x => bool_decide (id x = yield contact)) bootstrap_list
           = Some reported ->
         run = flat_map (calls self lifespan) failed ++ calls self lifespan contact ++
               [on_bootstrap_call kSuccess reported] /\
         List.filter is_on_bootstrap_call run = [on_bootstrap_call kSuccess reported]) /\
      (List.find (fun x => bool_decide (id x = yield contact)) bootstrap_list = None ->
       run = flat_map (calls self lifespan) failed ++ calls self lifespan contact ++
             [if NDEBUG then end_dereferenced else assertion_failure]) /\
      (id contact = yield contact -> Forall (fun x => id x <> yield contact) failed ->
       run = flat_map (calls self lifespan) failed ++ calls self lifespan contact ++
             [on_bootstrap_call kSuccess contact]))).
Proof.
  intros lifespan run asserted. split; [|split].
  - intros -> ->. reflexivity.
  - intros Htry Hna. subst run. unfold TryBootstrapping.
    assert (Ht : (if bootstrap_off_existing_connection
                  then negb (bool_decide (nat_type_ = kSymmetric)) else true) = true).
    { destruct bootstrap_off_existing_connection; [|reflexivity].
      rewrite bool_decide_eq_false_2 by auto. reflexivity. }
    rewrite Ht. simpl.
    destruct NDEBUG; [exfalso; apply Hna; left; reflexivity|]. simpl.
    destruct (forallb _ bootstrap_list) eqn:E; [|reflexivity].
    exfalso. apply Hna. right. apply Forall_forall. intros peer Hin.
    rewrite forallb_forall in E. apply list_elem_of_In in Hin. specialize (E peer Hin).
    apply andb_prop in E as [E1 E2]. apply negb_true_iff in E1, E2.
    apply bool_decide_eq_false in E1, E2. auto.
  - intros Htry Hassert.
    destruct (TryBootstrapping_attempts self nat_type_ local_endpoint bootstrap_list
                bootstrap_off_existing_connection Htry Hassert) as [Hex Hfirst].
    split; [exact Hex|]. intros failed contact next Hlist Hfailed Hok.
    destruct (Hfirst failed contact next Hlist Hfailed Hok) as (Hseq & Hrep & Hself).
    split; [exact Hseq|]. split; [exact Hrep|]. split; [|exact Hself].
    intros Hnone. fold lifespan run in Hseq. rewrite Hseq. unfold on_bootstrap.
    rewrite Hok, Hnone. destruct NDEBUG; reflexivity.
Qed.

End BootstrapProperties.

Lemma TryBootstrapping_in_list_order_witness :
  let run NDEBUG nat_type_ local_endpoint l off :=
    Transport.TryBootstrapping NDEBUG IsValid_model scenario_bootstrap_connect_timeout
      scenario_bootstrap_connection_lifespan Transport.second_answers
      Transport.no_nat_detection Transport.ping_succeeds true nat_type_
      local_endpoint l off in
  let connect c :=
    Transport.ConnectionManager_Connect (Transport.id c)
      (Transport.external (Transport.endpoint_pair c)) "key"
      scenario_bootstrap_connect_timeout scenario_bootstrap_connection_lifespan
      Transport.bootstrap_closure in
  run true Transport.kSymmetric (mkEndpoint 2130706433 5000)
      [Transport.contact_4; Transport.contact_5_second] true =
    [Transport.on_bootstrap_call Transport.kSuccess Transport.Contact_default] /\
  run false Transport.kOther ep_private
      [Transport.contact_4; Transport.contact_5_second] false =
    [Transport.assertion_failure] /\
  run true Transport.kOther (mkEndpoint 2130706433 5000)
      [Transport.contact_4; Transport.contact_5_first] false =
    [connect Transport.contact_4; connect Transport.contact_5_first;
     Transport.on_bootstrap_call Transport.kNotConnectable Transport.Contact_default] /\
  run true Transport.kOther (mkEndpoint 2130706433 5000)
      [Transport.contact_4; Transport.contact_5_second; Transport.contact_5_first] false =
    [connect Transport.contact_4; connect Transport.contact_5_second;
     Transport.Transport_AddConnection 1;
     Transport.on_bootstrap_call Transport.kSuccess Transport.contact_5_second].
Proof.
  intros run connect. split; [|split; [|split]].
  - destruct (TryBootstrapping_in_list_order true IsValid_model
                scenario_bootstrap_connect_timeout scenario_bootstrap_connection_lifespan
                Transport.second_answers Transport.no_nat_detection Transport.ping_succeeds
                true Transport.kSymmetric (mkEndpoint 2130706433 5000)
                [Transport.contact_4; Transport.contact_5_second] true) as (H & _ & _).
    apply H; reflexivity.
  - destruct (TryBootstrapping_in_list_order false IsValid_model
                scenario_bootstrap_connect_timeout scenario_bootstrap_connection_lifespan
                Transport.second_answers Transport.no_nat_detection Transport.ping_succeeds
                true Transport.kOther ep_private
                [Transport.contact_4; Transport.contact_5_second] false) as (_ & H & _).
    apply H; [discriminate|]. intros [Hd|Hall]; [discriminate|].
    apply Forall_cons in Hall as [[Hl _] _]. apply Hl. reflexivity.
  - destruct (TryBootstrapping_in_list_order true IsValid_model
                scenario_bootstrap_connect_timeout scenario_bootstrap_connection_lifespan
                Transport.second_answers Transport.no_nat_detection Transport.ping_succeeds
                true Transport.kOther (mkEndpoint 2130706433 5000)
                [Transport.contact_4; Transport.contact_5_first] false) as (_ & _ & H).
    destruct H as [H _]; [discriminate|left; reflexivity|].
    destruct H as [H _]; [repeat constructor|]. exact H.
  - destruct (TryBootstrapping_in_list_order true IsValid_model
                scenario_bootstrap_connect_timeout scenario_bootstrap_connection_lifespan
                Transport.second_answers Transport.no_nat_detection Transport.ping_succeeds
                true Transport.kOther (mkEndpoint 2130706433 5000)
                [Transport.contact_4; Transport.contact_5_second; Transport.contact_5_first]
                false) as (_ & _ & H).
    destruct H as [_ H]; [discriminate|left; reflexivity|].
    destruct (H [Transport.contact_4] Transport.contact_5_second [Transport.contact_5_first])
      as (_ & _ & _ & H3); [reflexivity|repeat constructor|reflexivity|].
    apply H3; [reflexivity|]. repeat constructor. discriminate.
Defined.

(** C8, the claim as stated fails: two candidates carry node id 5; the first
    does not answer and the second does.  The second is the first candidate
    that yields a valid peer id, yet the completion callback is handed the
    first one.  And a bootstrap off an existing connection behind a symmetric
    NAT tries no candidate and reports [kSuccess] with a null contact, also
    for an empty list. *)
Lemma TryBootstrapping_reports_other_contact :
  Transport.attempt_yield IsValid_model Transport.second_answers Transport.contact_5_first
    = NodeId_default /\
  Transport.attempt_yield IsValid_model Transport.second_answers Transport.contact_5_second
    = 5 /\
  Transport.contact_5_first <> Transport.contact_5_second /\
  Transport.TryBootstrapping true IsValid_model scenario_bootstrap_connect_timeout
    scenario_bootstrap_connection_lifespan Transport.second_answers
    Transport.no_nat_detection Transport.ping_succeeds true Transport.kOther
    (mkEndpoint 2130706433 5000)
    [Transport.contact_5_first; Transport.contact_5_second] false =
  [Transport.ConnectionManager_Connect 5 ep_public_40000 "key"
     scenario_bootstrap_connect_timeout scenario_bootstrap_connection_lifespan
     Transport.bootstrap_closure;
   Transport.ConnectionManager_Connect 5 ep_public_40123 "key"
     scenario_bootstrap_connect_timeout scenario_bootstrap_connection_lifespan
     Transport.bootstrap_closure;
   Transport.Transport_AddConnection 1;
   Transport.on_bootstrap_call Transport.kSuccess Transport.contact_5_first] /\
  Transport.TryBootstrapping true IsValid_model scenario_bootstrap_connect_timeout
    scenario_bootstrap_connection_lifespan Transport.second_answers
    Transport.no_nat_detection Transport.ping_succeeds true Transport.kSymmetric
    (mkEndpoint 2130706433 5000) [] true =
  [Transport.on_bootstrap_call Transport.kSuccess Transport.Contact_default].
Proof.
  split; [vm_compute; reflexivity|]. split; [vm_compute; reflexivity|].
  split; [discriminate|]. split; vm_compute; reflexivity.
Qed.

(** * Further properties of the code *)

(** ** The connection set, continued *)

Lemma set_connections_same cm : set_connections cm (connections_ cm) = cm.
Proof. destruct cm; reflexivity. Qed.

Lemma set_connections_twice cm l l' :
  set_connections (set_connections cm l) l' = set_connections cm l'.
Proof. reflexivity. Qed.

Lemma set_insert_refused c l : (set_insert c l).2 = false -> (set_insert c l).1 = l.
Proof.
  induction l as [|x xs IH]; simpl; [discriminate|].
  destruct (c <? x)%positive; simpl; [discriminate|].
  destruct (c =? x)%positive; simpl; [reflexivity|].
  destruct (set_insert c xs) as [xs' b]; simpl in *. intros ->. rewrite IH; reflexivity.
Qed.

Lemma set_erase_absent c l : c ∉ l -> set_erase c l = l.
Proof.
  induction l as [|x xs IH]; simpl; [reflexivity|].
  rewrite not_elem_of_cons. intros [Hne Hin].
  destruct (c =? x)%positive eqn:E; [apply Pos.eqb_eq in E; congruence|].
  rewrite IH by assumption. reflexivity.
Qed.

Lemma set_erase_insert c l :
  sorted_set l -> c ∉ l -> set_erase c (set_insert c l).1 = l.
Proof.
  unfold sorted_set. induction l as [|x xs IH]; simpl; intros Hs Hin.
  - rewrite Pos.eqb_refl. reflexivity.
  - apply not_elem_of_cons in Hin as [Hne Hin].
    inversion Hs as [|? ? Hxs Hall]; subst.
    destruct (c <? x)%positive eqn:Hlt; simpl.
    + rewrite Pos.eqb_refl. reflexivity.
    + destruct (c =? x)%positive eqn:Heq; [apply Pos.eqb_eq in Heq; congruence|].
      specialize (IH Hxs Hin). destruct (set_insert c xs) as [xs' b]; simpl in *.
      rewrite Heq, IH. reflexivity.
Qed.

Lemma find_set_insert_other (f : ptr -> bool) c l :
  f c = false -> List.find f (set_insert c l).1 = List.find f l.
Proof.
  intros Hf. induction l as [|x xs IH]; simpl.
  - rewrite Hf. reflexivity.
  - destruct (c <? x)%positive; simpl; [rewrite Hf; reflexivity|].
    destruct (c =? x)%positive; simpl; [reflexivity|].
    destruct (set_insert c xs) as [xs' b]; simpl in *. rewrite IH. reflexivity.
Qed.

Lemma find_set_insert_new (f : ptr -> bool) c l :
  List.find f l = None -> f c = true -> (set_insert c l).2 = true ->
  List.find f (set_insert c l).1 = Some c.
Proof.
  intros Hnone Hf. induction l as [|x xs IH]; simpl in *.
  - rewrite Hf. reflexivity.
  - destruct (f x) eqn:Hx; [discriminate|].
    destruct (c <? x)%positive; simpl; [rewrite Hf; reflexivity|].
    destruct (c =? x)%positive; simpl; [discriminate|].
    specialize (IH Hnone). destruct (set_insert c xs) as [xs' b]; simpl in *.
    intros Hb. rewrite Hx. auto.
Qed.

Lemma IsNormal_not_pending h c : IsNormal h c = true -> state_is h c kPending = false.
Proof.
  unfold IsNormal, state_is. intros Hn. apply bool_decide_eq_false. intros E.
  rewrite E in Hn. vm_compute in Hn. discriminate.
Qed.

(** X1: adding a normal connection that is not in the set and then removing
    it gives the manager back as it was. *)
Theorem AddConnection_RemoveConnection_round_trip NDEBUG h cm c :
  live cm -> IsNormal h c = true -> c ∉ connections_ cm ->
  exists cm',
    AddConnection NDEBUG h cm c = Ok (cm', true) /\
    c ∈ connections_ cm' /\
    RemoveConnection NDEBUG h cm' c = Ok cm.
Proof.
  intros Hlive Hn Hin. destruct (live_invariant cm Hlive) as [_ Hs].
  unfold AddConnection, RemoveConnection, assert.
  rewrite (IsNormal_not_pending _ _ Hn), Hn, !orb_true_r.
  pose proof (set_insert_second c _ Hs) as H2.
  pose proof (set_insert_elem c (connections_ cm) c) as He.
  pose proof (set_erase_insert c _ Hs Hin) as Hr.
  destruct (set_insert c (connections_ cm)) as [l' b]; simpl in *.
  destruct b; [|tauto]. rewrite orb_true_r. eexists. split; [reflexivity|].
  split; [apply He; auto|]. simpl. rewrite Hr.
  rewrite set_connections_twice, set_connections_same. reflexivity.
Qed.

Lemma AddConnection_RemoveConnection_round_trip_witness :
  exists cm',
    AddConnection false heap_two_to_peer7 (ConnectionManager_new 9 1) 2 = Ok (cm', true) /\
    2%positive ∈ connections_ cm' /\
    RemoveConnection false heap_two_to_peer7 cm' 2 = Ok (ConnectionManager_new 9 1).
Proof.
  apply (AddConnection_RemoveConnection_round_trip false heap_two_to_peer7
           (ConnectionManager_new 9 1) 2).
  - apply live_new.
  - vm_compute. reflexivity.
  - simpl. apply not_elem_of_nil.
Defined.

(** X2: [AddConnection] never inserts a connection that is not in a normal
    state, and whenever it returns [false] the manager is unchanged; when it
    returns [true] the connection is in the set, which has grown by one. *)
Theorem AddConnection_result NDEBUG h cm c cm' b :
  AddConnection NDEBUG h cm c = Ok (cm', b) ->
  (b = true ->
   IsNormal h c = true /\ c ∈ connections_ cm' /\
   NormalConnectionsCount cm' = NormalConnectionsCount cm + 1) /\
  (b = false -> cm' = cm) /\
  (IsNormal h c = false -> b = false).
Proof.
  unfold AddConnection, assert.
  destruct (NDEBUG || negb (state_is h c kPending)); [|discriminate].
  destruct (IsNormal h c) eqn:Hn.
  - pose proof (set_insert_length c (connections_ cm)) as Hl.
    pose proof (set_insert_elem c (connections_ cm) c) as He.
    pose proof (set_insert_refused c (connections_ cm)) as Hr.
    destruct (set_insert c (connections_ cm)) as [l' b']; simpl in *.
    destruct (NDEBUG || b'); [|discriminate]. intros [= <- <-].
    split; [|split].
    + intros ->. split; [reflexivity|]. split; [apply He; auto|].
      unfold NormalConnectionsCount. simpl. rewrite Hl. lia.
    + intros ->. rewrite Hr by reflexivity. apply set_connections_same.
    + discriminate.
  - intros [= <- <-]. split; [discriminate|]. split; reflexivity.
Qed.

Lemma AddConnection_result_witness :
  IsNormal heap_two_to_peer7 1 = true /\
  1%positive ∈ connections_ (set_connections (ConnectionManager_new 9 1) [1%positive]) /\
  NormalConnectionsCount (set_connections (ConnectionManager_new 9 1) [1%positive]) =
    NormalConnectionsCount (ConnectionManager_new 9 1) + 1.
Proof.
  apply (AddConnection_result false heap_two_to_peer7 (ConnectionManager_new 9 1) 1
           (set_connections (ConnectionManager_new 9 1) [1%positive]) true).
  - vm_compute. reflexivity.
  - reflexivity.
Defined.

(** X3: adding a connection object that is already in the set changes
    nothing; a release build returns [false], a debug build stops at
    [assert(result.second)].  A pending connection is refused the same way:
    [false] in a release build, the first assertion in a debug build. *)
Theorem AddConnection_refusals h cm c :
  live cm ->
  (IsNormal h c = true -> c ∈ connections_ cm ->
   AddConnection true h cm c = Ok (cm, false) /\
   AddConnection false h cm c = AssertionFailed) /\
  (state h c = Some kPending ->
   AddConnection true h cm c = Ok (cm, false) /\
   AddConnection false h cm c = AssertionFailed).
Proof.
  intros Hlive. destruct (live_invariant cm Hlive) as [_ Hs]. split.
  - intros Hn Hin. unfold AddConnection, assert.
    rewrite (IsNormal_not_pending _ _ Hn), Hn. simpl.
    pose proof (set_insert_second c _ Hs) as H2.
    pose proof (set_insert_refused c (connections_ cm)) as Hr.
    destruct (set_insert c (connections_ cm)) as [l' b]; simpl in *.
    apply H2 in Hin. subst b. rewrite Hr by reflexivity. simpl.
    rewrite set_connections_same. split; reflexivity.
  - intros Hp. unfold AddConnection, assert, IsNormal, state_is. rewrite Hp.
    rewrite (bool_decide_eq_true_2 (Some kPending = Some kPending)) by reflexivity.
    rewrite !bool_decide_eq_false_2 by discriminate. split; reflexivity.
Qed.

Lemma AddConnection_refusals_witness :
  AddConnection true heap_two_to_peer7
    (set_connections (ConnectionManager_new 9 1) [1%positive]) 1 =
    Ok (set_connections (ConnectionManager_new 9 1) [1%positive], false) /\
  AddConnection false heap_two_to_peer7
    (set_connections (ConnectionManager_new 9 1) [1%positive]) 1 = AssertionFailed.
Proof.
  destruct (AddConnection_refusals heap_two_to_peer7
              (set_connections (ConnectionManager_new 9 1) [1%positive]) 1) as [H _].
  - apply (live_AddConnection false heap_two_to_peer7 (ConnectionManager_new 9 1) 1 _ true);
      [apply live_new|vm_compute; reflexivity].
  - apply H; [vm_compute; reflexivity|left].
Defined.

(** X4: [RemoveConnection] takes exactly that connection object out of the
    set and leaves the others and the socket map alone; for an object that is
    not in the set it changes nothing, so a second removal is harmless.  A
    debug build stops at the assertion when the connection is not normal. *)
Theorem RemoveConnection_effect NDEBUG h cm c :
  live cm ->
  (IsNormal h c = false -> RemoveConnection false h cm c = AssertionFailed) /\
  (NDEBUG = true \/ IsNormal h c = true ->
   exists cm',
     RemoveConnection NDEBUG h cm c = Ok cm' /\
     (forall x, x ∈ connections_ cm' <-> x ∈ connections_ cm /\ x <> c) /\
     sockets_ cm' = sockets_ cm /\
     (c ∉ connections_ cm -> cm' = cm) /\
     RemoveConnection NDEBUG h cm' c = Ok cm').
Proof.
  intros Hlive. destruct (live_invariant cm Hlive) as [_ Hs]. split.
  - intros Hn. unfold RemoveConnection, assert. rewrite Hn. reflexivity.
  - intros Hok. unfold RemoveConnection, assert.
    assert (Ha : NDEBUG || IsNormal h c = true)
      by (destruct Hok as [->| ->]; [reflexivity|apply orb_true_r]).
    rewrite Ha. eexists. split; [reflexivity|]. simpl.
    split; [intros x; apply set_erase_elem; exact Hs|]. split; [reflexivity|].
    split.
    + intros Hin. rewrite set_erase_absent by assumption. apply set_connections_same.
    + rewrite set_connections_twice. f_equal. f_equal. apply set_erase_absent.
      intros Hin. apply set_erase_elem in Hin; [tauto|exact Hs].
Qed.

Lemma RemoveConnection_effect_witness :
  RemoveConnection false heap_two_to_peer7
    (set_connections (ConnectionManager_new 9 1) [1%positive]) 3 = AssertionFailed /\
  exists cm',
    RemoveConnection false heap_two_to_peer7
      (set_connections (ConnectionManager_new 9 1) [1%positive]) 1 = Ok cm' /\
    connections_ cm' = [].
Proof.
  assert (Hlive : live (set_connections (ConnectionManager_new 9 1) [1%positive])).
  { apply (live_AddConnection false heap_two_to_peer7 (ConnectionManager_new 9 1) 1 _ true);
      [apply live_new|vm_compute; reflexivity]. }
  split.
  - destruct (RemoveConnection_effect false heap_two_to_peer7 _ 3 Hlive) as [H _].
    apply H. vm_compute. reflexivity.
  - destruct (RemoveConnection_effect false heap_two_to_peer7 _ 1 Hlive) as [_ H].
    destruct H as (cm' & Hrm & _); [right; vm_compute; reflexivity|].
    exists cm'. split; [exact Hrm|]. revert Hrm. vm_compute. intros [= <-]. reflexivity.
Defined.

(** X5: after [AddConnection] has accepted a connection whose socket leads
    to a peer, [GetConnection] for that peer finds a connection of the set
    that leads to it, and finds this very connection when the peer had none
    before; lookups for other peers are not affected. *)
Theorem GetConnection_after_AddConnection NDEBUG h cm c cm' peer_id :
  AddConnection NDEBUG h cm c = Ok (cm', true) ->
  PeerNodeId h c = Some peer_id ->
  (exists c', GetConnection h cm' peer_id = Some c' /\
              c' ∈ connections_ cm' /\ PeerNodeId h c' = Some peer_id) /\
  (GetConnection h cm peer_id = None -> GetConnection h cm' peer_id = Some c) /\
  (forall q, q <> peer_id -> GetConnection h cm' q = GetConnection h cm q).
Proof.
  unfold AddConnection, assert.
  destruct (NDEBUG || negb (state_is h c kPending)); [|discriminate].
  destruct (IsNormal h c); [|discriminate].
  pose proof (set_insert_elem c (connections_ cm) c) as He.
  pose proof (fun f => find_set_insert_other f c (connections_ cm)) as Ho.
  pose proof (fun f => find_set_insert_new f c (connections_ cm)) as Hn.
  destruct (set_insert c (connections_ cm)) as [l' b]; simpl in *.
  destruct (NDEBUG || b); [|discriminate]. intros [= <- ->] Hp.
  unfold GetConnection, FindConnection. simpl. split; [|split].
  - destruct (List.find _ l') as [c'|] eqn:Hf.
    + apply find_elem_of in Hf as [Hin Hd]. apply bool_decide_eq_true in Hd. eauto.
    + rewrite find_None_elem_of in Hf. specialize (Hf c (proj2 He (or_introl eq_refl))).
      apply bool_decide_eq_false in Hf. contradiction.
  - intros Hnone. apply Hn; [exact Hnone|apply bool_decide_eq_true_2; exact Hp|reflexivity].
  - intros q Hq. apply Ho. apply bool_decide_eq_false_2. rewrite Hp. congruence.
Qed.

Lemma GetConnection_after_AddConnection_witness :
  GetConnection heap_two_to_peer7
    (set_connections (ConnectionManager_new 9 1) [2%positive]) 7 = Some 2%positive.
Proof.
  destruct (GetConnection_after_AddConnection false heap_two_to_peer7
              (ConnectionManager_new 9 1) 2
              (set_connections (ConnectionManager_new 9 1) [2%positive]) 7)
    as (_ & H & _); [vm_compute; reflexivity|vm_compute; reflexivity|].
  apply H. reflexivity.
Defined.

(** X6: [Send] returns [false] and hands nothing to the strand exactly when
    no connection of the set leads to the peer; otherwise it returns [true]
    and posts one [StartSending], with this message and functor, on the
    connection [GetConnection] returns.  [CloseConnection] returns the same
    answer. *)
Theorem Send_finds_connection h cm peer_id message message_sent_functor :
  ((forall c, c ∈ connections_ cm -> PeerNodeId h c <> Some peer_id) ->
   Send h cm peer_id message message_sent_functor = (false, [])) /\
  ((exists c, c ∈ connections_ cm /\ PeerNodeId h c = Some peer_id) ->
   exists c, GetConnection h cm peer_id = Some c /\
     c ∈ connections_ cm /\ PeerNodeId h c = Some peer_id /\
     Send h cm peer_id message message_sent_functor =
       (true, [strand_StartSending c message message_sent_functor])) /\
  (CloseConnection h cm peer_id).1 = (Send h cm peer_id message message_sent_functor).1.
Proof.
  unfold Send, CloseConnection, GetConnection. split; [|split].
  - intros Hnone. apply FindConnection_None in Hnone. rewrite Hnone. reflexivity.
  - intros (c & Hc & Hp). destruct (FindConnection h cm peer_id) as [c'|] eqn:Hf.
    + apply FindConnection_Some in Hf as [Hin Hp']. exists c'. auto.
    + rewrite FindConnection_None in Hf. exfalso. exact (Hf c Hc Hp).
  - destruct (FindConnection h cm peer_id); reflexivity.
Qed.

Lemma Send_finds_connection_witness :
  Send heap_two_to_peer7 (set_connections (ConnectionManager_new 9 1) [1%positive]) 8
    "hello" None = (false, []) /\
  exists c,
    GetConnection heap_two_to_peer7
      (set_connections (ConnectionManager_new 9 1) [1%positive]) 7 = Some c /\
    Send heap_two_to_peer7 (set_connections (ConnectionManager_new 9 1) [1%positive]) 7
      "hello" None = (true, [strand_StartSending c "hello" None]).
Proof.
  split.
  - apply (Send_finds_connection heap_two_to_peer7
             (set_connections (ConnectionManager_new 9 1) [1%positive]) 8 "hello" None).
    intros c Hc. apply list_elem_of_singleton in Hc. subst. vm_compute. discriminate.
  - destruct (Send_finds_connection heap_two_to_peer7
                (set_connections (ConnectionManager_new 9 1) [1%positive]) 7 "hello" None)
      as (_ & H & _).
    destruct H as (c & H1 & _ & _ & H2).
    + exists 1%positive. split; [left|vm_compute; reflexivity].
    + exists c. auto.
Defined.

(** X7: [Close] detaches the manager from the dispatcher first and then
    posts [Connection::Close] exactly once for every connection of the set,
    and for no other. *)
Theorem Close_posts_once cm :
  live cm ->
  head (Close cm) = Some Dispatcher_SetConnectionManager_nullptr /\
  forall c,
    length (List.filter (fun e => bool_decide (e = strand_Connection_Close c)) (Close cm)) =
    if bool_decide (c ∈ connections_ cm) then 1%nat else 0%nat.
Proof.
  intros Hlive. destruct (live_invariant cm Hlive) as [_ Hs]. split; [reflexivity|].
  intros c. unfold Close. cbn [List.filter].
  rewrite (bool_decide_eq_false_2
             (Dispatcher_SetConnectionManager_nullptr = strand_Connection_Close c))
    by discriminate.
  unfold sorted_set in Hs.
  induction Hs as [|x xs Hxs IH Hall]; cbn [List.map List.filter].
  - rewrite bool_decide_eq_false_2 by apply not_elem_of_nil. reflexivity.
  - rewrite Forall_forall in Hall. destruct (decide (x = c)) as [->|Hne].
    + rewrite (bool_decide_eq_true_2 (strand_Connection_Close c = strand_Connection_Close c))
        by reflexivity.
      cbn [length]. rewrite IH.
      rewrite (bool_decide_eq_true_2 (c ∈ c :: xs)) by left.
      rewrite bool_decide_eq_false_2; [reflexivity|].
      intros Hin. apply Hall in Hin. lia.
    + rewrite (bool_decide_eq_false_2 (strand_Connection_Close x = strand_Connection_Close c))
        by congruence.
      rewrite IH. destruct (decide (c ∈ xs)) as [Hin|Hin].
      * rewrite !bool_decide_eq_true_2; [reflexivity|right; assumption|assumption].
      * rewrite !bool_decide_eq_false_2; [reflexivity| |assumption].
        rewrite not_elem_of_cons. split; [congruence|assumption].
Qed.

Lemma Close_posts_once_witness :
  length (List.filter (fun e => bool_decide (e = strand_Connection_Close 1))
            (Close (set_connections (ConnectionManager_new 9 1) [1%positive]))) = 1%nat.
Proof.
  assert (Hlive : live (set_connections (ConnectionManager_new 9 1) [1%positive])).
  { apply (live_AddConnection false heap_two_to_peer7 (ConnectionManager_new 9 1) 1 _ true);
      [apply live_new|vm_compute; reflexivity]. }
  destruct (Close_posts_once _ Hlive) as [_ H]. rewrite H. reflexivity.
Defined.

Section PermanentProperties.

Variable OnPrivateNetwork : Endpoint -> bool.
Variable MakePermanent : Heap -> ptr -> bool -> Heap.

(** X8: [MakeConnectionPermanent] returns [false], touching nothing and
    leaving the null endpoint in its reference parameter, exactly when no
    connection of the set leads to the peer.  Whatever it returns, the
    endpoint it hands back is either the null endpoint or the peer endpoint of
    a connection to that peer which is not on a private network. *)
Theorem MakeConnectionPermanent_endpoint h cm peer_id validated :
  let '(h', result, peer_endpoint) :=
    MakeConnectionPermanent OnPrivateNetwork MakePermanent h cm peer_id validated in
  (result = false <->
   forall c, c ∈ connections_ cm -> PeerNodeId h c <> Some peer_id) /\
  (result = false -> h' = h /\ peer_endpoint = Endpoint_default) /\
  (peer_endpoint <> Endpoint_default ->
   OnPrivateNetwork peer_endpoint = false /\
   exists c, c ∈ connections_ cm /\ PeerNodeId h c = Some peer_id /\
     h' = MakePermanent h c validated /\ PeerEndpoint h' c = Some peer_endpoint).
Proof.
  unfold MakeConnectionPermanent.
  destruct (FindConnection h cm peer_id) as [c|] eqn:Hf.
  - apply FindConnection_Some in Hf as [Hin Hp].
    destruct (PeerEndpoint (MakePermanent h c validated) c) as [ep|] eqn:Hep.
    + split; [split; [discriminate|intros H; exfalso; exact (H c Hin Hp)]|].
      split; [discriminate|]. destruct (OnPrivateNetwork ep) eqn:Hpriv; simpl.
      * intros H. congruence.
      * intros _. split; [exact Hpriv|]. exists c. auto.
    + split; [split; [discriminate|intros H; exfalso; exact (H c Hin Hp)]|].
      split; [discriminate|]. intros H. congruence.
  - split; [split; [intros _; apply FindConnection_None; exact Hf|reflexivity]|].
    split; [auto|]. intros H. congruence.
Qed.

End PermanentProperties.

Lemma MakeConnectionPermanent_endpoint_witness :
  MakeConnectionPermanent OnPrivateNetwork_model MakePermanent_model heap_private_peer
    (set_connections (ConnectionManager_new 9 1) [1%positive; 4%positive]) 9 true =
    (heap_private_peer, false, Endpoint_default) /\
  (MakeConnectionPermanent OnPrivateNetwork_model MakePermanent_model heap_private_peer
     (set_connections (ConnectionManager_new 9 1) [1%positive; 4%positive]) 8 true).2 =
    Endpoint_default /\
  OnPrivateNetwork_model
    (MakeConnectionPermanent OnPrivateNetwork_model MakePermanent_model heap_private_peer
       (set_connections (ConnectionManager_new 9 1) [1%positive; 4%positive]) 7 true).2 = false.
Proof.
  split; [|split].
  - pose proof (MakeConnectionPermanent_endpoint OnPrivateNetwork_model MakePermanent_model
                  heap_private_peer
                  (set_connections (ConnectionManager_new 9 1) [1%positive; 4%positive])
                  9 true) as H.
    destruct (MakeConnectionPermanent _ _ _ _ _ _) as [[h' r] ep].
    destruct H as (H1 & H2 & _).
    assert (Hr : r = false).
    { apply H1. intros c Hc.
      apply elem_of_cons in Hc as [->|Hc]; [vm_compute; discriminate|].
      apply list_elem_of_singleton in Hc. subst. vm_compute. discriminate. }
    destruct (H2 Hr) as [-> ->]. rewrite Hr. reflexivity.
  - vm_compute. reflexivity.
  - pose proof (MakeConnectionPermanent_endpoint OnPrivateNetwork_model MakePermanent_model
                  heap_private_peer
                  (set_connections (ConnectionManager_new 9 1) [1%positive; 4%positive])
                  7 true) as H.
    destruct (MakeConnectionPermanent _ _ _ _ _ _) as [[h' r] ep].
    destruct H as (_ & _ & H3). simpl.
    destruct (decide (ep = Endpoint_default)) as [->|Hne]; [vm_compute; reflexivity|].
    apply H3. exact Hne.
Defined.

(** ** The socket registry, continued *)

Lemma SocketMap_erase_last id socket m :
  id ∉ m.*1 -> SocketMap_erase id (m ++ [(id, socket)]) = m.
Proof.
  induction m as [|[k s] rest IH]; simpl.
  - intros _. rewrite N.eqb_refl. reflexivity.
  - rewrite not_elem_of_cons. intros [Hne Hin].
    destruct (k =? id) eqn:E; [apply N.eqb_eq in E; congruence|].
    rewrite IH by assumption. reflexivity.
Qed.

Lemma AddSocket_inv draws cm socket cm' id rest :
  AddSocket draws cm socket = Some (cm', id, rest) ->
  id <> 0 /\ id ∉ (sockets_ cm).*1 /\
  cm' = set_sockets cm (sockets_ cm ++ [(id, socket)]).
Proof.
  unfold AddSocket.
  destruct (AddSocket_loop draws (sockets_ cm) 0) as [[id' rest']|] eqn:E; [|discriminate].
  intros [= <- <- <-]. apply AddSocket_loop_Some in E as (Hz & Hf & _).
  apply SocketMap_find_None in Hf. rewrite SocketMap_assign_absent by assumption. auto.
Qed.

Lemma AddSocket_RemoveSocket_round_trip_aux draws cm socket cm' id rest :
  AddSocket draws cm socket = Some (cm', id, rest) ->
  RemoveSocket cm' id = cm.
Proof.
  intros H. apply AddSocket_inv in H as (Hz & Hin & ->).
  unfold RemoveSocket. apply N.eqb_neq in Hz. rewrite Hz. simpl.
  rewrite SocketMap_erase_last by assumption. destruct cm; reflexivity.
Qed.



(** X10: two sockets added one after the other get different ids, and each
    is found under its own id afterwards, whatever the random source gave. *)
Theorem AddSocket_twice draws1 draws2 cm socket1 socket2 cm1 cm2 id1 id2 rest1 rest2 :
  AddSocket draws1 cm socket1 = Some (cm1, id1, rest1) ->
  AddSocket draws2 cm1 socket2 = Some (cm2, id2, rest2) ->
  id1 <> id2 /\
  SocketMap_find id1 (sockets_ cm2) = Some socket1 /\
  SocketMap_find id2 (sockets_ cm2) = Some socket2.
Proof.
  intros H1 H2.
  pose proof H1 as H1'. pose proof H2 as H2'.
  apply AddSocket_inv in H1' as (Hz1 & Hin1 & Hcm1).
  apply AddSocket_inv in H2' as (Hz2 & Hin2 & Hcm2).
  assert (Hf1 : SocketMap_find id1 (sockets_ cm1) = Some socket1).
  { rewrite Hcm1. simpl. rewrite <- SocketMap_assign_absent by assumption.
    apply SocketMap_find_assign. }
  assert (Hne : id1 <> id2).
  { intros ->. apply SocketMap_find_None in Hin2. congruence. }
  split; [exact Hne|].
  rewrite Hcm2. simpl. rewrite <- SocketMap_assign_absent by assumption. split.
  - rewrite SocketMap_find_assign_other by congruence. exact Hf1.
  - apply SocketMap_find_assign.
Qed.

Lemma AddSocket_twice_witness :
  12 <> 77 /\
  SocketMap_find 12 [(12, 3%positive); (77, 5%positive)] = Some 3%positive /\
  SocketMap_find 77 [(12, 3%positive); (77, 5%positive)] = Some 5%positive.
Proof.
  apply (AddSocket_twice [12] [12; 77] (ConnectionManager_new 9 1) 3%positive 5%positive
           manager_waiting
           (set_sockets manager_waiting [(12, 3%positive); (77, 5%positive)])
           12 77 [] []); vm_compute; reflexivity.
Defined.

(** ** Handshake routing, continued *)

Section RoutingProperties.

Variable IsValid : Endpoint -> bool.
Variable OnPrivateNetwork : Endpoint -> bool.
Variable bootstrap_connect_timeout : time_duration.
Variable bootstrap_connection_lifespan : time_duration.

Local Abbreviation GetSocket' :=
  (GetSocket IsValid OnPrivateNetwork bootstrap_connect_timeout bootstrap_connection_lifespan).
Local Abbreviation HandlePingFrom' :=
  (HandlePingFrom IsValid bootstrap_connect_timeout bootstrap_connection_lifespan).

(** X11: whatever the datagram and the sender, a socket [GetSocket] returns
    is one that is registered in the socket map. *)
Theorem GetSocket_returns_registered h cm data endpoint h' events s :
  GetSocket IsValid OnPrivateNetwork bootstrap_connect_timeout bootstrap_connection_lifespan
    h cm data endpoint = (h', events, Some s) ->
  exists id, (id, s) ∈ sockets_ cm.
Proof.
  unfold GetSocket. destruct (sockets_ cm) as [|p m] eqn:Hm; [discriminate|].
  destruct (DecodeDestinationSocketId data) as [socket_id|]; [|discriminate].
  destruct (socket_id =? 0).
  - destruct (Decode data) as [hp|]; [|discriminate].
    destruct (bool_decide (ConnectionReason hp = kNormal)).
    + destruct (List.find (peer_endpoint_is h endpoint) (p :: m)) as [[id s']|] eqn:Hf.
      * intros [= _ _ <-]. apply find_elem_of in Hf as [Hin _]. eauto.
      * destruct (List.find (peer_address_revisable OnPrivateNetwork h endpoint) (p :: m))
          as [[id s']|] eqn:Hf'; [|discriminate].
        intros [= _ _ <-]. apply find_elem_of in Hf' as [Hin _]. eauto.
    + destruct (List.find (peer_endpoint_is h endpoint) (p :: m)) as [[id s']|] eqn:Hf.
      * intros [= _ _ <-]. apply find_elem_of in Hf as [Hin _]. eauto.
      * destruct (HandlePingFrom' h cm hp endpoint). discriminate.
  - intros [= _ _ Hf]. exists socket_id. exact (SocketMap_find_Some socket_id (p :: m) s Hf).
Qed.

(** X12: once [AddSocket] has returned an id, a datagram whose destination
    socket id is that id is routed to the socket added, whoever sent it, with
    nothing called or changed; once [RemoveSocket] has been called for the
    id, the same datagram is dropped. *)
Theorem GetSocket_routes_by_id draws h cm socket cm' id rest data endpoint :
  AddSocket draws cm socket = Some (cm', id, rest) ->
  DecodeDestinationSocketId data = Some id ->
  GetSocket' h cm' data endpoint = (h, [], Some socket) /\
  GetSocket' h (RemoveSocket cm' id) data endpoint = (h, [], None).
Proof.
  intros Hadd Hid.
  pose proof (AddSocket_RemoveSocket_round_trip_aux draws cm socket cm' id rest Hadd) as Hrm.
  apply AddSocket_inv in Hadd as (Hz & Hin & ->). rewrite Hrm.
  apply N.eqb_neq in Hz. unfold GetSocket. rewrite Hid, Hz. simpl. split.
  - destruct (sockets_ cm ++ [(id, socket)]) eqn:E; [destruct (sockets_ cm); discriminate|].
    rewrite <- E, <- SocketMap_assign_absent by assumption.
    rewrite SocketMap_find_assign. reflexivity.
  - apply SocketMap_find_None in Hin. rewrite Hin. destruct (sockets_ cm); reflexivity.
Qed.

Lemma exact_match_after_revision h endpoint s o (m : SocketMap) :
  (forall sp, sp ∈ m -> peer_endpoint_is h endpoint sp = false) ->
  (exists id, (id, s) ∈ m) -> h !! s = Some o ->
  exists sp, List.find (peer_endpoint_is (UpdatePeerEndpoint h s endpoint) endpoint) m
               = Some sp /\ sp.2 = s.
Proof.
  intros Hnone [id Hin] Ho.
  assert (Hs : PeerEndpoint (UpdatePeerEndpoint h s endpoint) s = Some endpoint).
  { unfold PeerEndpoint, UpdatePeerEndpoint. rewrite lookup_alter_eq, Ho. reflexivity. }
  destruct (List.find (peer_endpoint_is (UpdatePeerEndpoint h s endpoint) endpoint) m)
    as [sp|] eqn:Hf.
  - exists sp. split; [reflexivity|]. apply find_elem_of in Hf as [Hsp Hp].
    destruct (decide (sp.2 = s)) as [E|Hne]; [exact E|exfalso].
    specialize (Hnone sp Hsp). unfold peer_endpoint_is, PeerEndpoint, UpdatePeerEndpoint in *.
    rewrite lookup_alter_ne in Hp by congruence. congruence.
  - rewrite find_None_elem_of in Hf. specialize (Hf (id, s) Hin).
    unfold peer_endpoint_is in Hf. simpl in Hf. rewrite bool_decide_eq_true_2 in Hf by exact Hs.
    discriminate.
Qed.

(** X13: the endpoint revision settles.  When a [kNormal] handshake from a
    sender that matched no socket exactly has been routed to a socket, the
    same datagram from the same sender is afterwards routed to the same
    socket as an exact match: nothing is called and nothing changes. *)
Theorem GetSocket_revision_settles h cm data endpoint handshake_packet h' events s :
  DecodeDestinationSocketId data = Some 0 ->
  Decode data = Some handshake_packet ->
  ConnectionReason handshake_packet = kNormal ->
  (forall sp, sp ∈ sockets_ cm -> PeerEndpoint h sp.2 <> Some endpoint) ->
  GetSocket' h cm data endpoint = (h', events, Some s) ->
  GetSocket' h' cm data endpoint = (h', [], Some s).
Proof.
  intros Hid Hdec Hreason Hexact. apply no_exact_match in Hexact.
  unfold GetSocket. destruct (sockets_ cm) as [|p m] eqn:Hm; [discriminate|].
  rewrite Hid, Hdec, Hreason. simpl "=?". cbn iota.
  rewrite bool_decide_eq_true_2 by reflexivity. rewrite Hexact.
  destruct (List.find (peer_address_revisable OnPrivateNetwork h endpoint) (p :: m))
    as [[id s']|] eqn:Hf; [|discriminate].
  intros [= <- _ <-]. cbn [snd] in *. apply find_elem_of in Hf as [Hin Hrev].
  unfold peer_address_revisable in Hrev. cbn [snd] in Hrev.
  destruct (h !! s') as [o|] eqn:Ho; [|discriminate].
  rewrite find_None_elem_of in Hexact.
  destruct (exact_match_after_revision h endpoint s' o (p :: m) Hexact
              (ex_intro _ id Hin) Ho) as (sp & Hsp & Hs).
  rewrite Hsp, Hs. reflexivity.
Qed.

Section ConnectFrame.

Variables (h : Heap) (cm : ConnectionManager).
Hypothesis connections_alive : Forall (fun c => is_Some (h !! c)) (connections_ cm).

Lemma make_shared_frame p o : h !! p = Some o -> (make_shared h).2 !! p = Some o.
Proof.
  intros Hp. unfold make_shared. simpl. rewrite lookup_insert_ne; [exact Hp|].
  intros E. pose proof (is_fresh (dom h)) as Hfr. rewrite E in Hfr.
  apply Hfr. apply elem_of_dom. eauto.
Qed.

Lemma find_agree {A} (f g : A -> bool) (l : list A) :
  (forall x, x ∈ l -> f x = g x) -> List.find f l = List.find g l.
Proof.
  induction l as [|x l IH]; simpl; intros H; [reflexivity|].
  rewrite (H x) by left. rewrite IH; [reflexivity|]. intros y Hy. apply H. right. exact Hy.
Qed.

Lemma make_shared_FindConnection q :
  FindConnection (make_shared h).2 cm q = FindConnection h cm q.
Proof.
  unfold FindConnection. apply find_agree. intros c Hc.
  rewrite Forall_forall in connections_alive. destruct (connections_alive c Hc) as [o Ho].
  unfold PeerNodeId. rewrite (make_shared_frame c o Ho), Ho. reflexivity.
Qed.

End ConnectFrame.

(** X14: [Connect] leaves every existing object as it is.  When the
    connections of the set are live objects, every [FindConnection] gives the
    same answer afterwards, and the connection it starts is a new, pending
    object that is not in the set. *)
Theorem Connect_leaves_connections h cm peer_id peer_endpoint validation_data
    connect_attempt_timeout lifespan failure_functor :
  Forall (fun c => is_Some (h !! c)) (connections_ cm) ->
  let '(h', events) :=
    Connect h cm peer_id peer_endpoint validation_data connect_attempt_timeout lifespan
            failure_functor in
  (forall p o, h !! p = Some o -> h' !! p = Some o) /\
  (forall q, FindConnection h' cm q = FindConnection h cm q) /\
  (forall e, e ∈ events ->
     exists c,
       e = Connection_StartConnecting c peer_id peer_endpoint validation_data
             connect_attempt_timeout lifespan failure_functor /\
       h !! c = None /\ c ∉ connections_ cm /\ state h' c = Some kPending).
Proof.
  intros Halive. unfold Connect. destruct (transport_ cm) as [t|].
  - pose proof (make_shared_frame h) as Hfr.
    pose proof (make_shared_FindConnection h cm Halive) as Hfind.
    unfold make_shared in *. simpl in *. split; [exact Hfr|]. split; [exact Hfind|].
    intros e He. apply list_elem_of_singleton in He. subst e.
    exists (fresh (dom h)). split; [reflexivity|].
    assert (Hnone : h !! fresh (dom h) = None)
      by (apply not_elem_of_dom; apply is_fresh).
    split; [exact Hnone|]. split.
    + intros Hin. rewrite Forall_forall in Halive. destruct (Halive _ Hin) as [o Ho].
      congruence.
    + unfold state. rewrite lookup_insert_eq. reflexivity.
  - split; [auto|]. split; [reflexivity|]. intros e He. inversion He.
Qed.

(** X15: [HandlePingFrom] makes at most one call, and that call either
    closes a connection or starts a connect to the node of the handshake at
    the sender's endpoint, with empty validation data and the bootstrap
    connect timeout, on an object that did not exist before.  With a sender
    endpoint that is not valid it makes no call and changes nothing.  The only
    connection it ever closes is one of the set that leads to the node of the
    handshake, and only for a valid sender, never for [kBootstrapAndDrop] nor
    for this node's own id. *)
Theorem HandlePingFrom_restraint h cm handshake_packet endpoint :
  let '(h', events) :=
    HandlePingFrom IsValid bootstrap_connect_timeout bootstrap_connection_lifespan
      h cm handshake_packet endpoint in
  (length events <= 1)%nat /\
  (IsValid endpoint = false -> h' = h /\ events = []) /\
  (forall e, e ∈ events ->
     (exists c, e = Connection_Close c) \/
     (exists c lifespan,
        e = Connection_StartConnecting c (node_id handshake_packet) endpoint ""
              bootstrap_connect_timeout lifespan None /\
        h !! c = None)) /\
  (forall c, Connection_Close c ∈ events ->
     events = [Connection_Close c] /\ c ∈ connections_ cm /\
     PeerNodeId h c = Some (node_id handshake_packet) /\
     IsValid endpoint = true /\
     ConnectionReason handshake_packet <> kBootstrapAndDrop /\
     node_id handshake_packet <> kThisNodeId_ cm).
Proof.
  assert (Hfresh : h !! fresh (dom h) = None)
    by (apply not_elem_of_dom; apply is_fresh).
  unfold HandlePingFrom.
  destruct (bool_decide (node_id handshake_packet = kThisNodeId_ cm)) eqn:Hown.
  { simpl. split; [lia|]. split; [auto|].
    split; intros x Hx; inversion Hx. }
  apply bool_decide_eq_false in Hown.
  destruct (IsValid endpoint).
  2:{ simpl. split; [lia|]. split; [auto|]. split; intros x Hx; inversion Hx. }
  assert (Hconnect : forall lifespan,
    let '(h', events) :=
      Connect h cm (node_id handshake_packet) endpoint "" bootstrap_connect_timeout
              lifespan None in
    (length events <= 1)%nat /\
    (true = false -> h' = h /\ events = []) /\
    (forall e, e ∈ events ->
       (exists c, e = Connection_Close c) \/
       (exists c lifespan',
          e = Connection_StartConnecting c (node_id handshake_packet) endpoint ""
                bootstrap_connect_timeout lifespan' None /\
          h !! c = None)) /\
    (forall c, Connection_Close c ∈ events ->
       events = [Connection_Close c] /\ c ∈ connections_ cm /\
       PeerNodeId h c = Some (node_id handshake_packet) /\
       true = true /\
       ConnectionReason handshake_packet <> kBootstrapAndDrop /\
       node_id handshake_packet <> kThisNodeId_ cm)).
  { intros lifespan. unfold Connect, make_shared. destruct (transport_ cm); simpl.
    - split; [lia|]. split; [discriminate|]. split.
      + intros e He. apply list_elem_of_singleton in He. subst e. right. eauto.
      + intros c Hc. apply list_elem_of_singleton in Hc. discriminate.
    - split; [lia|]. split; [discriminate|]. split; intros x Hx; inversion Hx. }
  destruct (FindConnection h cm (node_id handshake_packet)) as [c'|] eqn:Hf.
  - destruct (bool_decide (ConnectionReason handshake_packet = kBootstrapAndDrop)) eqn:Hr;
      simpl.
    + apply Hconnect.
    + apply bool_decide_eq_false in Hr. apply FindConnection_Some in Hf as [Hin Hp].
      split; [lia|]. split; [discriminate|]. split.
      * intros e He. left. apply list_elem_of_singleton in He. eauto.
      * intros c Hc. apply list_elem_of_singleton in Hc. injection Hc as ->. auto 10.
  - simpl. apply Hconnect.
Qed.

End RoutingProperties.

Lemma GetSocket_returns_registered_witness :
  exists id, (id, 3%positive) ∈ sockets_ manager_waiting.
Proof.
  apply (GetSocket_returns_registered IsValid_model OnPrivateNetwork_model
           scenario_bootstrap_connect_timeout scenario_bootstrap_connection_lifespan
           heap_waiting manager_waiting (handshake_from 7 kNormal) ep_public_40123
           (UpdatePeerEndpoint heap_waiting 3 ep_public_40123)
           [Socket_UpdatePeerEndpoint 3 ep_public_40123] 3%positive).
  vm_compute. reflexivity.
Defined.


Lemma GetSocket_routes_by_id_witness :
  GetSocket IsValid_model OnPrivateNetwork_model scenario_bootstrap_connect_timeout
    scenario_bootstrap_connection_lifespan heap_waiting
    (set_sockets manager_waiting [(12, 3%positive); (77, 5%positive)])
    (mkBuffer (Some 77) None) ep_private = (heap_waiting, [], Some 5%positive) /\
  GetSocket IsValid_model OnPrivateNetwork_model scenario_bootstrap_connect_timeout
    scenario_bootstrap_connection_lifespan heap_waiting
    (RemoveSocket (set_sockets manager_waiting [(12, 3%positive); (77, 5%positive)]) 77)
    (mkBuffer (Some 77) None) ep_private = (heap_waiting, [], None).
Proof.
  apply (GetSocket_routes_by_id IsValid_model OnPrivateNetwork_model
           scenario_bootstrap_connect_timeout scenario_bootstrap_connection_lifespan
           [12; 0; 77] heap_waiting manager_waiting 5%positive _ 77 []);
    vm_compute; reflexivity.
Defined.

Lemma GetSocket_revision_settles_witness :
  GetSocket IsValid_model OnPrivateNetwork_model scenario_bootstrap_connect_timeout
    scenario_bootstrap_connection_lifespan
    (UpdatePeerEndpoint heap_waiting 3 ep_public_40123) manager_waiting
    (handshake_from 7 kNormal) ep_public_40123 =
  (UpdatePeerEndpoint heap_waiting 3 ep_public_40123, [], Some 3%positive).
Proof.
  apply (GetSocket_revision_settles IsValid_model OnPrivateNetwork_model
           scenario_bootstrap_connect_timeout scenario_bootstrap_connection_lifespan
           heap_waiting manager_waiting (handshake_from 7 kNormal) ep_public_40123
           (mkHandshakePacket 7 kNormal) _ [Socket_UpdatePeerEndpoint 3 ep_public_40123]);
    try reflexivity.
  apply no_exact_match. vm_compute. reflexivity.
Defined.

Lemma Connect_leaves_connections_witness :
  FindConnection
    (Connect heap_two_to_peer7 (set_connections (ConnectionManager_new 9 1) [1%positive])
       8 ep_public_40000 "" scenario_bootstrap_connect_timeout
       scenario_bootstrap_connection_lifespan None).1
    (set_connections (ConnectionManager_new 9 1) [1%positive]) 7 =
  FindConnection heap_two_to_peer7
    (set_connections (ConnectionManager_new 9 1) [1%positive]) 7.
Proof.
  pose proof (Connect_leaves_connections heap_two_to_peer7
                (set_connections (ConnectionManager_new 9 1) [1%positive])
                8 ep_public_40000 "" scenario_bootstrap_connect_timeout
                scenario_bootstrap_connection_lifespan None) as H.
  destruct (Connect _ _ _ _ _ _ _ _) as [h' events]. simpl.
  destruct H as (_ & H & _).
  - repeat constructor. vm_compute. eauto.
  - apply H.
Defined.

Lemma HandlePingFrom_restraint_witness :
  HandlePingFrom IsValid_model scenario_bootstrap_connect_timeout
    scenario_bootstrap_connection_lifespan heap_two_to_peer7
    (set_connections (ConnectionManager_new 9 1) [1%positive])
    (mkHandshakePacket 7 kPing) Endpoint_default = (heap_two_to_peer7, []) /\
  (1%positive ∈ connections_ (set_connections (ConnectionManager_new 9 1) [1%positive]) /\
   PeerNodeId heap_two_to_peer7 1 = Some 7 /\
   IsValid_model ep_public_40123 = true /\
   kPing <> kBootstrapAndDrop /\ 7 <> 1).
Proof.
  split.
  - pose proof (HandlePingFrom_restraint IsValid_model scenario_bootstrap_connect_timeout
                  scenario_bootstrap_connection_lifespan heap_two_to_peer7
                  (set_connections (ConnectionManager_new 9 1) [1%positive])
                  (mkHandshakePacket 7 kPing) Endpoint_default) as H.
    destruct (HandlePingFrom _ _ _ _ _ _ _) as [h' events].
    destruct H as (_ & H & _). destruct H as [-> ->]; reflexivity.
  - pose proof (HandlePingFrom_restraint IsValid_model scenario_bootstrap_connect_timeout
                  scenario_bootstrap_connection_lifespan heap_two_to_peer7
                  (set_connections (ConnectionManager_new 9 1) [1%positive])
                  (mkHandshakePacket 7 kPing) ep_public_40123) as H.
    change (HandlePingFrom IsValid_model scenario_bootstrap_connect_timeout
              scenario_bootstrap_connection_lifespan heap_two_to_peer7
              (set_connections (ConnectionManager_new 9 1) [1%positive])
              (mkHandshakePacket 7 kPing) ep_public_40123)
      with (heap_two_to_peer7, [Connection_Close 1]) in H.
    destruct H as (_ & _ & _ & H). destruct (H 1%positive) as (_ & H'); [left|].
    exact H'.
Defined.

(** ** Rendezvous connect as a whole *)

Section RendezvousProperties.

Import Transport Rendezvous.

Variable IsValid : Endpoint -> bool.
Variable rendezvous_connect_timeout : time_duration.

Local Abbreviation rendezvous' := (rendezvous IsValid rendezvous_connect_timeout).

Lemma run_nothing_waiting outcomes : run rendezvous_connect_timeout outcomes [] = [].
Proof. destruct outcomes; reflexivity. Qed.

(** X16: when every connect that is started reports an outcome, a
    rendezvous connect calls the caller's handler exactly once, whatever the
    endpoints and the outcomes; it starts at most two connects and hands at
    most one connection to [AddConnection]. *)
Theorem rendezvous_handler_once IsOpen peer_id peer_endpoint_pair peer_public_key handler
    outcomes :
  (2 <= length outcomes)%nat ->
  let calls := rendezvous' IsOpen peer_id peer_endpoint_pair peer_public_key handler outcomes in
  (exists error, List.filter is_handler_call calls = [handler_call handler error]) /\
  (length (List.filter is_Connect_call calls) <= 2)%nat /\
  (length (List.filter is_AddConnection_call calls) <= 1)%nat.
Proof.
  intros Hlen.
  destruct outcomes as [|[open1 self1 error1 c1] [|[open2 self2 error2 c2] rest]];
    simpl in Hlen; try lia.
  unfold rendezvous, DoConnect.
  destruct IsOpen; simpl; [|split; [eauto|split; lia]].
  destruct (IsValid (external peer_endpoint_pair));
    [destruct (bool_decide (local peer_endpoint_pair = external peer_endpoint_pair))|];
    destruct open1, self1, error1, self2, error2; simpl;
    rewrite ?run_nothing_waiting; simpl; (split; [eauto|split; lia]).
Qed.

(** X17: with a valid external endpoint that differs from the local one and
    the multiplexer open throughout, the two attempts are made one after the
    other, and the outcome of the external attempt is only the signal to
    start the local one: its connection is not handed to [AddConnection] and
    its error is not reported; the handler gets the error of the local
    attempt. *)
Theorem rendezvous_external_then_local peer_id peer_endpoint_pair peer_public_key handler
    o1 o2 rest :
  IsValid (external peer_endpoint_pair) = true ->
  local peer_endpoint_pair <> external peer_endpoint_pair ->
  IsOpen_then o1 = true ->
  rendezvous' true peer_id peer_endpoint_pair peer_public_key handler (o1 :: o2 :: rest) =
  [ConnectionManager_Connect peer_id (external peer_endpoint_pair) peer_public_key
     rendezvous_connect_timeout pos_infin
     (rendezvous_closure
        (on_connect2 peer_id (local peer_endpoint_pair) peer_public_key handler));
   ConnectionManager_Connect peer_id (local peer_endpoint_pair) peer_public_key
     rendezvous_connect_timeout pos_infin (rendezvous_closure (on_connect handler))] ++
  default_on_connect (self_then o2) (error_then o2) (connection_then o2) ++
  [handler_call handler (error_then o2)].
Proof.
  intros Hv Hne Hopen. unfold rendezvous, DoConnect. simpl. rewrite Hv.
  rewrite (bool_decide_eq_false_2 _ Hne).
  destruct o1 as [open1 self1 error1 c1], o2 as [open2 self2 error2 c2].
  simpl in Hopen. subst open1.
  destruct open2, self2, error2; simpl; rewrite ?run_nothing_waiting; reflexivity.
Qed.

End RendezvousProperties.

Lemma rendezvous_handler_once_witness :
  exists error,
    List.filter Rendezvous.is_handler_call
      (Rendezvous.rendezvous IsValid_model scenario_rendezvous_connect_timeout true 7
         Transport.pair_behind_nat "key" 0
         [Rendezvous.mkOutcome true true (Some Transport.timed_out) 1;
          Rendezvous.mkOutcome true true None 2]) =
    [Transport.handler_call 0 error].
Proof.
  apply (rendezvous_handler_once IsValid_model scenario_rendezvous_connect_timeout true 7
           Transport.pair_behind_nat "key" 0
           [Rendezvous.mkOutcome true true (Some Transport.timed_out) 1;
            Rendezvous.mkOutcome true true None 2]).
  simpl. lia.
Defined.

Lemma rendezvous_external_then_local_witness :
  Rendezvous.rendezvous IsValid_model scenario_rendezvous_connect_timeout true 7
    Transport.pair_behind_nat "key" 0
    [Rendezvous.mkOutcome true true None 1;
     Rendezvous.mkOutcome true true (Some Transport.timed_out) 2] =
  [Transport.ConnectionManager_Connect 7 ep_public_40000 "key"
     scenario_rendezvous_connect_timeout pos_infin
     (Transport.rendezvous_closure (Transport.on_connect2 7 ep_private "key" 0));
   Transport.ConnectionManager_Connect 7 ep_private "key"
     scenario_rendezvous_connect_timeout pos_infin
     (Transport.rendezvous_closure (Transport.on_connect 0));
   Transport.handler_call 0 (Some Transport.timed_out)].
Proof.
  apply (rendezvous_external_then_local IsValid_model scenario_rendezvous_connect_timeout 7
           Transport.pair_behind_nat "key" 0
           (Rendezvous.mkOutcome true true None 1)
           (Rendezvous.mkOutcome true true (Some Transport.timed_out) 2) []);
    [reflexivity|discriminate|reflexivity].
Defined.

(** ** Bootstrap, continued *)

Section BootstrapConnects.

Import Transport Rendezvous.

Variable NDEBUG : bool.
Variable IsValid : Endpoint -> bool.
Variable bootstrap_connect_timeout : time_duration.
Variable bootstrap_connection_lifespan : time_duration.
Variable connect_result : Contact -> ConnectResult.
Variable RemoteNatDetectionEndpoint : NodeId -> Endpoint.
Variable ping_result : NodeId -> Endpoint -> ReturnCode.

Local Abbreviation iterate := (ConnectToBootstrapEndpoint IsValid bootstrap_connect_timeout
                                 connect_result RemoteNatDetectionEndpoint ping_result).
Local Abbreviation calls := (attempt_calls IsValid bootstrap_connect_timeout connect_result
                               RemoteNatDetectionEndpoint ping_result).
Local Abbreviation yield := (attempt_yield IsValid connect_result).

(** The connect a bootstrap attempt on [contact] starts. *)
Local Abbreviation connect_to lifespan :=
  (fun contact : Contact =>
     ConnectionManager_Connect (id contact) (external (endpoint_pair contact))
       (public_key contact) bootstrap_connect_timeout lifespan bootstrap_closure).

Local Abbreviation has_valid_external :=
  (fun contact : Contact => IsValid (external (endpoint_pair contact))).

Lemma calls_connects self lifespan contact :
  List.filter is_Connect_call (calls self lifespan contact) =
  if has_valid_external contact then [connect_to lifespan contact] else [].
Proof.
  unfold attempt_calls, DetectNatType, default_on_connect.
  destruct (IsValid (external (endpoint_pair contact))); simpl; [|reflexivity].
  destruct (connect_result contact); [reflexivity|].
  destruct self; simpl; destruct (negb (IsValid _)); simpl; try reflexivity;
    destruct (ping_result _ _); reflexivity.
Qed.

Lemma iterate_connects self lifespan handler range :
  (forall peer_id, List.filter is_Connect_call (handler peer_id) = []) ->
  exists tried rest,
    range = tried ++ rest /\
    List.filter is_Connect_call (iterate self range lifespan handler) =
    List.map (connect_to lifespan) (List.filter has_valid_external tried).
Proof.
  intros Hh. induction range as [|contact next IH]; simpl.
  - exists [], []. split; [reflexivity|]. apply Hh.
  - rewrite (attempt_split IsValid bootstrap_connect_timeout connect_result
               RemoteNatDetectionEndpoint ping_result).
    rewrite List.filter_app, calls_connects.
    destruct (negb (NodeId_IsValid (yield contact))).
    + destruct IH as (tried & rest & -> & IH). exists (contact :: tried), rest.
      split; [reflexivity|]. rewrite IH. simpl.
      destruct (IsValid (external (endpoint_pair contact))); reflexivity.
    + exists [contact], next. split; [reflexivity|]. rewrite Hh, app_nil_r. simpl.
      destruct (IsValid (external (endpoint_pair contact))); reflexivity.
Qed.

(** X18: whatever happens, the connects a bootstrap starts are connects to
    the external endpoints of candidates from a front part of the list, in
    list order and at most one per candidate, each with the candidate's id
    and key, the bootstrap connect timeout and the same lifespan (zero when
    bootstrapping off an existing connection); a candidate whose external
    endpoint is not valid is passed over without a connect, and no connect
    ever goes to a local endpoint. *)
Theorem TryBootstrapping_connects self nat_type_ local_endpoint bootstrap_list
    bootstrap_off_existing_connection :
  exists tried rest,
    bootstrap_list = tried ++ rest /\
    List.filter is_Connect_call
      (TryBootstrapping NDEBUG IsValid bootstrap_connect_timeout
         bootstrap_connection_lifespan connect_result RemoteNatDetectionEndpoint
         ping_result self nat_type_ local_endpoint bootstrap_list
         bootstrap_off_existing_connection) =
    List.map
      (connect_to (if bootstrap_off_existing_connection then milliseconds 0
                   else bootstrap_connection_lifespan))
      (List.filter has_valid_external tried).
Proof.
  unfold TryBootstrapping.
  destruct (negb (if bootstrap_off_existing_connection
                  then negb (bool_decide (nat_type_ = kSymmetric)) else true)).
  { exists [], bootstrap_list. split; reflexivity. }
  destruct (NDEBUG || forallb _ bootstrap_list).
  2:{ exists [], bootstrap_list. split; reflexivity. }
  apply iterate_connects. intros peer_id. unfold on_bootstrap.
  destruct (NodeId_IsValid peer_id); [|reflexivity].
  destruct (List.find _ bootstrap_list); [reflexivity|]. destruct NDEBUG; reflexivity.
Qed.

End BootstrapConnects.

(** ** The callback slots *)

Section CallbackProperties.

Import Callbacks.

Variable NDEBUG : bool.
Variable kInvalidConnection : Z.
Variable kConnectionAlreadyExists : Z.

Local Abbreviation AddConnection' :=
  (Callbacks.AddConnection NDEBUG kInvalidConnection kConnectionAlreadyExists).

(** X19: [Transport::Close] closes the connection manager, if one was
    created, before the multiplexer, and empties the three callback slots;
    from then on none of the default handlers and neither [AddConnection] nor
    [RemoveConnection] calls a user functor again, and a second [Close]
    leaves the slots as they are. *)
Theorem Close_silences_callbacks t :
  let t' := (Close t).1 in
  (Close t).2 =
    (if connection_manager_ t then [ConnectionManager_Close_call] else []) ++
    [Multiplexer_Close_call] /\
  (Close t').1 = t' /\
  (forall self peer_id message, DefaultOnReceiveHandler self t' peer_id message = []) /\
  (forall self h error connection, DefaultOnCloseHandler self t' h error connection = []) /\
  (forall h connection timed_out, RemoveConnection t' h connection timed_out = []) /\
  (forall h cm connection cm' calls,
     AddConnection' t' h cm connection = Ok (cm', calls) ->
     List.filter is_user_call calls = []).
Proof.
  simpl. split; [reflexivity|]. split; [reflexivity|].
  assert (Hrm : forall h connection timed_out,
            RemoveConnection (mkTransport None None None (connection_manager_ t))
              h connection timed_out = []).
  { intros h c b. unfold RemoveConnection. simpl.
    destruct (h !! c); [|reflexivity]. destruct (negb _); reflexivity. }
  split; [intros [] p m; reflexivity|].
  split; [intros [] h e c; simpl; [apply Hrm|reflexivity]|].
  split; [exact Hrm|].
  intros h cm c cm' calls. unfold Callbacks.AddConnection, announce_added. simpl.
  destruct (negb (state_is h c kTemporary)).
  - destruct (connection_manager_AddConnection NDEBUG h cm c) as [[cm1 r]|]; [|discriminate].
    destruct (_ =? kInvalidConnection)%Z; [intros [= _ <-]; reflexivity|].
    destruct (_ =? kConnectionAlreadyExists)%Z; intros [= _ <-]; reflexivity.
  - intros [= _ <-]. reflexivity.
Qed.

(** X20: a connection in state [kDuplicate] is never announced as lost.  Any
    other connection is announced once when the slot holds a functor, with
    its peer id, the temporary flag set exactly for state [kTemporary] and the
    timed-out flag as given; through [DefaultOnCloseHandler] that flag is set
    exactly when the error is [timed_out], and nothing is announced once the
    transport is gone. *)
Theorem RemoveConnection_announcement t h connection o :
  h !! connection = Some o ->
  (state_ o = kDuplicate ->
   forall timed_out, RemoveConnection t h connection timed_out = []) /\
  (state_ o <> kDuplicate ->
   forall error,
     DefaultOnCloseHandler false t h error connection = [] /\
     DefaultOnCloseHandler true t h error connection =
       match on_connection_lost_ t with
       | Some slot =>
           [on_connection_lost_call slot (peer_node_id_ (socket_ o))
              (bool_decide (state_ o = kTemporary))
              (bool_decide (error = Some Transport.timed_out))]
       | None => []
       end).
Proof.
  intros Ho. unfold DefaultOnCloseHandler, RemoveConnection. rewrite Ho. split.
  - intros Hd b. rewrite (bool_decide_eq_true_2 _ Hd). reflexivity.
  - intros Hd error. rewrite (bool_decide_eq_false_2 _ Hd). simpl. split; reflexivity.
Qed.

(** X21: a connection in state [kTemporary] never reaches the connection
    set: [Transport::AddConnection] leaves the manager as it is and only
    announces the connection, with the temporary flag set.  For any other
    connection the manager afterwards is the one the manager's own
    [AddConnection] produces, and an announcement, if made, is for this
    connection with the temporary flag clear. *)
Theorem AddConnection_temporary t h cm connection o :
  h !! connection = Some o ->
  (state_ o = kTemporary ->
   Callbacks.AddConnection NDEBUG kInvalidConnection kConnectionAlreadyExists
     t h cm connection =
     Ok (cm, match on_connection_added_ t with
             | Some slot =>
                 [on_connection_added_call slot (peer_node_id_ (socket_ o)) true connection]
             | None => []
             end)) /\
  (state_ o <> kTemporary ->
   forall cm' calls,
     Callbacks.AddConnection NDEBUG kInvalidConnection kConnectionAlreadyExists
     t h cm connection = Ok (cm', calls) ->
     (exists result, connection_manager_AddConnection NDEBUG h cm connection = Ok (cm', result)) /\
     forall slot peer_id temporary c,
       on_connection_added_call slot peer_id temporary c ∈ calls ->
       temporary = false /\ c = connection /\ peer_id = peer_node_id_ (socket_ o) /\
       on_connection_added_ t = Some slot).
Proof.
  intros Ho. unfold Callbacks.AddConnection, announce_added, state_is, state.
  rewrite Ho. simpl. split.
  - intros Ht. rewrite Ht. rewrite !bool_decide_eq_true_2 by reflexivity. simpl.
    destruct (on_connection_added_ t); reflexivity.
  - intros Ht cm' calls.
    rewrite (bool_decide_eq_false_2 (Some (state_ o) = Some kTemporary)) by congruence.
    simpl. destruct (connection_manager_AddConnection NDEBUG h cm connection) as [[cm1 r]|]; [|discriminate].
    destruct (_ =? kInvalidConnection)%Z.
    { intros [= <- <-]. split; [eauto|]. intros slot p b c Hin.
      apply list_elem_of_singleton in Hin. discriminate. }
    destruct (_ =? kConnectionAlreadyExists)%Z.
    { intros [= <- <-]. split; [eauto|]. intros slot p b c Hin. inversion Hin. }
    intros [= <- <-]. split; [eauto|]. intros slot p b c Hin.
    destruct (on_connection_added_ t) as [f|]; [|inversion Hin].
    apply list_elem_of_singleton in Hin. injection Hin as -> -> Hb ->.
    rewrite bool_decide_eq_false_2 in Hb by assumption. auto.
Qed.

End CallbackProperties.

Lemma Close_silences_callbacks_witness :
  List.filter Callbacks.is_user_call
    [Callbacks.on_connection_added_call 1 7 false 1] <> [] /\
  forall calls,
    Callbacks.AddConnection false (-1) (-2)
      (Callbacks.Close (Callbacks.mkTransport (Some 0) (Some 1) (Some 2) true)).1
      heap_two_to_peer7 (ConnectionManager_new 9 1) 1 =
      Ok (set_connections (ConnectionManager_new 9 1) [1%positive], calls) ->
    List.filter Callbacks.is_user_call calls = [].
Proof.
  split; [discriminate|]. intros calls H.
  destruct (Close_silences_callbacks false (-1) (-2)
              (Callbacks.mkTransport (Some 0) (Some 1) (Some 2) true))
    as (_ & _ & _ & _ & _ & Hadd).
  exact (Hadd heap_two_to_peer7 (ConnectionManager_new 9 1) 1%positive _ calls H).
Defined.

Lemma RemoveConnection_announcement_witness :
  Callbacks.DefaultOnCloseHandler true
    (Callbacks.mkTransport (Some 0) (Some 1) (Some 2) true) heap_two_to_peer7
    (Some Transport.timed_out) 1 =
  [Callbacks.on_connection_lost_call 2 7 false true].
Proof.
  destruct (RemoveConnection_announcement
              (Callbacks.mkTransport (Some 0) (Some 1) (Some 2) true)
              heap_two_to_peer7 1
              (mkConnection kPermanent (socket_to 7 (mkEndpoint 16909060 5000) true)))
    as [_ H]; [vm_compute; reflexivity|].
  destruct (H ltac:(discriminate) (Some Transport.timed_out)) as [_ H']. exact H'.
Defined.

Lemma AddConnection_temporary_witness :
  Callbacks.AddConnection false (-1) (-2)
    (Callbacks.mkTransport (Some 0) (Some 1) (Some 2) true)
    (<[6%positive := mkConnection kTemporary (socket_to 8 ep_public_40000 true)]> ∅)
    (ConnectionManager_new 9 1) 6 =
  Ok (ConnectionManager_new 9 1, [Callbacks.on_connection_added_call 1 8 true 6]).
Proof.
  destruct (AddConnection_temporary false (-1) (-2)
              (Callbacks.mkTransport (Some 0) (Some 1) (Some 2) true)
              (<[6%positive := mkConnection kTemporary (socket_to 8 ep_public_40000 true)]> ∅)
              (ConnectionManager_new 9 1) 6
              (mkConnection kTemporary (socket_to 8 ep_public_40000 true)))
    as [H _]; [vm_compute; reflexivity|].
  apply H. reflexivity.
Defined.
